(** * NetSpect: a shallow embedding of the port parser, the port scanner,
    the ping prober and the DNS resolver of [netspect], with proofs of
    their documented behaviour.

    Python [str] values are modelled as [string] (code points below 256);
    Python [int] as [Z]; Python floats (round-trip times) as [Q], i.e.
    float arithmetic is read as exact arithmetic. *)

From Stdlib Require Import ZArith QArith List Bool Lia.
From Stdlib Require Import Strings.String Strings.Ascii.
From Stdlib Require Import Sorting.Sorted.
Import ListNotations.

Open Scope string_scope.
Open Scope Z_scope.

(* ------------------------------------------------------------------ *)
(** ** Python string helpers *)

Module PyStr.

(** [str.isspace] on the code points representable here: the ASCII
    controls \t \n \v \f \r, the separators \x1c-\x1f, space, NEL and NBSP. *)
Definition is_space (c : ascii) : bool :=
  let n := nat_of_ascii c in
  ((9 <=? n) && (n <=? 13))%nat || ((28 <=? n) && (n <=? 32))%nat
  || (n =? 133)%nat || (n =? 160)%nat.

Definition is_digit (c : ascii) : bool :=
  let n := nat_of_ascii c in ((48 <=? n) && (n <=? 57))%nat.

Definition digit_value (c : ascii) : Z := Z.of_nat (nat_of_ascii c) - 48.

Fixpoint lstrip (s : string) : string :=
  match s with
  | EmptyString => EmptyString
  | String c r => if is_space c then lstrip r else s
  end.

Fixpoint rstrip (s : string) : string :=
  match s with
  | EmptyString => EmptyString
  | String c r =>
      match rstrip r with
      | EmptyString => if is_space c then EmptyString else String c EmptyString
      | r' => String c r'
      end
  end.

(** [s.strip()] *)
Definition strip (s : string) : string := rstrip (lstrip s).

(** [sep in s] for a one-character [sep] *)
Fixpoint contains (sep : ascii) (s : string) : bool :=
  match s with
  | EmptyString => false
  | String c r => Ascii.eqb c sep || contains sep r
  end.

(** [s.split(sep)] for a one-character [sep]: never empty *)
Fixpoint split (sep : ascii) (s : string) : list string :=
  match s with
  | EmptyString => [EmptyString]
  | String c r =>
      let parts := split sep r in
      if Ascii.eqb c sep then EmptyString :: parts
      else match parts with
           | p :: ps => String c p :: ps
           | [] => [String c EmptyString]
           end
  end.

(** [s.split(sep, 1)] when [sep in s]: the text before and after the
    first [sep]; [None] when [sep] does not occur *)
Fixpoint split_once (sep : ascii) (s : string) : option (string * string) :=
  match s with
  | EmptyString => None
  | String c r =>
      if Ascii.eqb c sep then Some (EmptyString, r)
      else match split_once sep r with
           | Some (a, b) => Some (String c a, b)
           | None => None
           end
  end.

(** [int(s)] for base 10: surrounding whitespace, an optional sign, then
    decimal digits where single underscores may separate digits. *)
Fixpoint digits (s : string) (acc : Z) (after_digit : bool) : option Z :=
  match s with
  | EmptyString => if after_digit then Some acc else None
  | String c r =>
      if is_digit c then digits r (acc * 10 + digit_value c) true
      else if Ascii.eqb c "_" && after_digit then digits r acc false
      else None
  end.

Definition py_int (s : string) : option Z :=
  match strip s with
  | String c r =>
      if Ascii.eqb c "+" then digits r 0 false
      else if Ascii.eqb c "-" then option_map Z.opp (digits r 0 false)
      else digits (String c r) 0 false
  | EmptyString => None
  end.

(** [str(n)] for integers *)
Definition digit_char (d : Z) : ascii := ascii_of_nat (48 + Z.to_nat d).

Fixpoint dec_acc (fuel : nat) (n : Z) (acc : string) : string :=
  match fuel with
  | O => acc
  | S f =>
      let acc' := String (digit_char (n mod 10)) acc in
      if n <? 10 then acc' else dec_acc f (n / 10) acc'
  end.

Definition dec (n : Z) : string := dec_acc (S (Z.to_nat (Z.log2 n))) n EmptyString.

Definition str_of_Z (n : Z) : string :=
  if n <? 0 then String "-" (dec (- n)) else dec n.

(** [f"{n:<5}"]: left aligned, padded with spaces to width 5 *)
Fixpoint spaces (k : nat) : string :=
  match k with O => EmptyString | S k' => String " " (spaces k') end.

Definition ljust5 (s : string) : string := s ++ spaces (5 - String.length s).

End PyStr.

Import PyStr.

(* ------------------------------------------------------------------ *)
(** ** [_parse_ports] (cli.py) *)

Module Ports.

Definition default_ports : list Z :=
  [21; 22; 23; 25; 53; 80; 110; 143; 443; 465; 587; 993; 995; 3306; 3389;
   5432; 5900; 8080; 8443].

(** [range(a, b)] *)
Fixpoint range_from (n : nat) (a : Z) : list Z :=
  match n with O => [] | S n' => a :: range_from n' (a + 1) end.

Definition py_range (a b : Z) : list Z := range_from (Z.to_nat (b - a)) a.

Definition in_port_range (n : Z) : bool := (0 <? n) && (n <=? 65535).

Definition range_error (part : string) : string :=
  "Invalid port range: " ++ part ++ ". Must be numbers between 1-65535.".

Definition number_error (part : string) : string :=
  "Invalid port number: " ++ part ++ ". Must be a number between 1-65535.".

Definition empty_error : string := "No valid ports specified.".

(** The [for part in parts] loop.  The Python [set] [ports] is kept as the
    list of every port added, in order ([ports.update] / [ports.add]
    append); only membership matters until [sorted(list(ports))].
    [inl msg] is [print_error(msg)] followed by [typer.Exit(code=1)]. *)
Fixpoint parse_parts (parts : list string) (ports : list Z) : string + list Z :=
  match parts with
  | [] => inr ports
  | part0 :: rest =>
      let part := strip part0 in
      match part with
      | EmptyString => parse_parts rest ports
      | _ =>
          (* [if '-' in part: start, end = part.split('-', 1)] *)
          match split_once "-" part with
          | Some (start, end_) =>
              match py_int start, py_int end_ with
              | Some start_port, Some end_port =>
                  if in_port_range start_port && in_port_range end_port
                     && (start_port <=? end_port)
                  then parse_parts rest (ports ++ py_range start_port (end_port + 1))
                  else inl (range_error part)
              | _, _ => inl (range_error part)
              end
          | None =>
              match py_int part with
              | Some port_val =>
                  if in_port_range port_val
                  then parse_parts rest (ports ++ [port_val])
                  else inl (number_error part)
              | None => inl (number_error part)
              end
          end
      end
  end.

(** [sorted(list(ports))]: ascending, each element once *)
Fixpoint insert_uniq (x : Z) (l : list Z) : list Z :=
  match l with
  | [] => [x]
  | y :: r => if x <? y then x :: l else if x =? y then l else y :: insert_uniq x r
  end.

Definition sorted_set (l : list Z) : list Z := fold_right insert_uniq [] l.

Definition parse_ports (port_str : option string) : string + list Z :=
  match port_str with
  | None | Some EmptyString => inr default_ports
  | Some s =>
      match parse_parts (split "," s) [] with
      | inl msg => inl msg
      | inr [] => inl empty_error
      | inr ports => inr (sorted_set ports)
      end
  end.

End Ports.

(* ------------------------------------------------------------------ *)
(** ** Python exceptions, console output and a small effect monad *)

Module Py.

Inductive exc :=
| NameError (msg : string)
| AttributeError (msg : string)
| IndexError (msg : string)
| KeyError (msg : string)
| ZeroDivisionError (msg : string)
| UnicodeDecodeError (msg : string)
| NXDOMAIN (msg : string)          (* dns.resolver.NXDOMAIN *)
| NoAnswer (msg : string)          (* dns.resolver.NoAnswer *)
| DnsTimeout (msg : string)        (* dns.exception.Timeout *)
| OtherError (cls msg : string).

(** [str(e)] *)
Definition exc_str (e : exc) : string :=
  match e with
  | NameError m | AttributeError m | IndexError m | KeyError m
  | ZeroDivisionError m | UnicodeDecodeError m | NXDOMAIN m | NoAnswer m
  | DnsTimeout m | OtherError _ m => m
  end.

(** What reaches the console (the [print_*] helpers of [utils/display.py]
    and [console.print]), and the network operations performed. *)
Inductive event :=
| Info (msg : string)
| Error (msg : string)
| Success (msg : string)
| Warning (msg : string)
| Print (msg : string)
| Connect (ip : string) (port : Z)
| Close (port : Z)
| Query (qname rtype : string)
| Table (title : string) (rows : list (string * string))
| PingStats (sent received lost : Z) (loss min max avg : Q).

Inductive outcome (A : Type) := Ret (a : A) | Raise (e : exc).
Arguments Ret {A} a.
Arguments Raise {A} e.

(** A computation appends to the console trace and returns or raises. *)
Definition M (A : Type) : Type := list event -> outcome A * list event.

Definition ret {A} (a : A) : M A := fun tr => (Ret a, tr).
Definition raise {A} (e : exc) : M A := fun tr => (Raise e, tr).
Definition bind {A B} (m : M A) (k : A -> M B) : M B :=
  fun tr => match m tr with
            | (Ret a, tr') => k a tr'
            | (Raise e, tr') => (Raise e, tr')
            end.
(** Printing one line.  The [print_*] helpers and [console.print] hand
    their text to rich as markup; rich raises [rich.errors.MarkupError] on a
    closing tag ([[/]] or [[/name]]) that closes nothing, and a backslash
    escapes the tag after it.  [emit] does not model that error: it is
    exact for lines whose interpolated text is [markup_plain], where the
    only tags are the helpers' own balanced ones.  Statements that depend
    on printing succeeding assume it of the text they print. *)
Definition emit (e : event) : M unit := fun tr => (Ret tt, (tr ++ [e])%list).

(** Text with neither "[" nor a backslash: no tag of its own, and no
    escape of a neighbouring one. *)
Definition markup_plain (s : string) : bool :=
  negb (contains "[" s) && negb (contains "\" s).

(** [try: m except Exception as e: h(e)] *)
Definition try_except {A} (m : M A) (h : exc -> M A) : M A :=
  fun tr => match m tr with
            | (Ret a, tr') => (Ret a, tr')
            | (Raise e, tr') => h e tr'
            end.

Notation "x <- m ;; k" := (bind m (fun x => k))
  (at level 61, m at next level, right associativity).
Notation "m ;; k" := (bind m (fun _ => k)) (at level 61, right associativity).

Definition run {A} (m : M A) : outcome A * list event := m [].

(** [print_warning] is defined in [utils/display.py] but is not imported by
    [core/discovery.py] nor by [core/dns_utils.py]: in those modules the
    call fails at the name lookup, before its argument is evaluated. *)
Definition print_warning_unbound {A} : M A :=
  raise (NameError "name 'print_warning' is not defined").

Definition nl : string := String (ascii_of_nat 10) EmptyString.
Definition quote : string := String (ascii_of_nat 34) EmptyString.

(** [sep.join(l)] *)
Definition join (sep : string) (l : list string) : string := String.concat sep l.

(** Python values returned to callers *)
#[warnings="-register-all"]
Inductive pyval := VInt (z : Z) | VStr (s : string) | VTuple (items : list pyval).

End Py.

Import Py.

(* ------------------------------------------------------------------ *)
(** ** [scan_ports] (core/discovery.py) and the [scan] command (cli.py) *)

Module Scan.

(** Result of [socket.gethostbyname(target)] *)
Inductive resolution := Resolved (ip : string) | Gaierror | ResolveFailed (msg : string).

(** Result of [socket.getservbyport(port, "tcp")] *)
Inductive service := Service (name : string) | ServiceOSError | ServiceFailed.

(** The network as seen by the scanner.  [connect_ex t ip p] is the value of
    [sock.connect_ex((ip, p))] after [sock.settimeout(t)], for a timeout
    [settimeout] accepts and a port [check_port] accepts: 0 when the TCP
    connection is established, an errno otherwise. *)
Record net := {
  gethostbyname : string -> resolution;
  connect_ex : Q -> string -> Z -> Z;
  getservbyport : Z -> service
}.

(** [sock.settimeout(timeout)] for a finite float [timeout]:
    [_PyTime_FromSecondsObject] raises [OverflowError] when the timeout in
    nanoseconds does not fit in a signed 64-bit integer (the bound is
    decided on the exact product; CPython compares the rounded double),
    then a negative timeout raises [ValueError] (message texts of CPython
    3.11). *)
Definition settimeout (timeout : Q) : option exc :=
  if Qle_bool (Z.pow 2 63 # 1) (timeout * (10 ^ 9 # 1))
     || negb (Qle_bool (- Z.pow 2 63 # 1) (timeout * (10 ^ 9 # 1)))
  then Some (OtherError "OverflowError" "timestamp too large to convert to C _PyTime_t")
  else if negb (Qle_bool 0 timeout)
  then Some (OtherError "ValueError" "Timeout value out of range")
  else None.

(** The port check of [sock.connect_ex((ip, port))]: the port is parsed
    as a C [int], then must lie in 0-65535. *)
Definition check_port (port : Z) : option exc :=
  if port <? - Z.pow 2 31 then Some (OtherError "OverflowError" "signed integer is less than minimum")
  else if Z.pow 2 31 - 1 <? port
  then Some (OtherError "OverflowError" "signed integer is greater than maximum")
  else if (port <? 0) || (65535 <? port)
  then Some (OtherError "OverflowError" "connect_ex(): port must be 0-65535.")
  else None.

(** The [for port in ports] loop (the progress bar is not modelled): the
    open ports as [(port, status, service)] and the closed count.  An
    exception of [settimeout] or of [connect_ex]'s port check leaves the
    loop, the [with Live(...)] block and [scan_ports], without closing the
    socket. *)
Fixpoint scan_loop (nw : net) (timeout : Q) (ip : string) (ports : list Z)
    (open_ports : list (Z * string * string)) (closed : Z)
    : M (list (Z * string * string) * Z) :=
  match ports with
  | [] => ret (open_ports, closed)
  | port :: rest =>
      match settimeout timeout with
      | Some e => raise e
      | None =>
      match check_port port with
      | Some e => raise e
      | None =>
      emit (Connect ip port) ;;
      if connect_ex nw timeout ip port =? 0 then
        let service_name :=
          match getservbyport nw port with
          | Service name => name
          | ServiceOSError | ServiceFailed => "unknown"
          end in
        emit (Close port) ;;
        scan_loop nw timeout ip rest (open_ports ++ [(port, "open", service_name)]) closed
      else
        emit (Close port) ;;
        scan_loop nw timeout ip rest open_ports (closed + 1)
      end
      end
  end.

Definition open_line (r : Z * string * string) : event :=
  let '(port, status, service) := r in
  Print ("  [bold green]Port " ++ ljust5 (str_of_Z port) ++ "[/bold green] ("
         ++ service ++ ") is " ++ status).

Fixpoint emit_all (l : list event) : M unit :=
  match l with [] => ret tt | e :: r => emit e ;; emit_all r end.

Definition scan_ports (nw : net) (target : string) (ports : list Z) (timeout : Q)
    : M (list pyval) :=
  match gethostbyname nw target with
  | Gaierror =>
      emit (Error ("Cannot resolve hostname: " ++ target
                   ++ ". Please check the name or use an IP address.")) ;;
      ret []
  | ResolveFailed m =>
      emit (Error ("An unexpected error occurred resolving hostname: " ++ m)) ;;
      ret []
  | Resolved target_ip =>
      emit (Info ("Scanning " ++ target ++ " (" ++ target_ip ++ ") for "
                  ++ str_of_Z (Z.of_nat (List.length ports)) ++ " port(s)...")) ;;
      res <- scan_loop nw timeout target_ip ports [] 0 ;;
      let '(open_ports, closed_ports_count) := res in
      (match open_ports with
       | [] => print_warning_unbound
       | _ :: _ =>
           emit (Success (nl ++ "Open ports on " ++ target ++ " (" ++ target_ip ++ "):")) ;;
           emit_all (map open_line open_ports)
       end) ;;
      emit (Info ("Summary: " ++ str_of_Z (Z.of_nat (List.length open_ports)) ++ " open, "
                  ++ str_of_Z closed_ports_count ++ " closed/filtered.")) ;;
      ret (map (fun '(p, s, _) => VTuple [VInt p; VStr s]) open_ports)
  end.

(** [_validate_host]: [is_ip] stands for [ipaddress.ip_address] accepting
    the text.  [false] is the [typer.BadParameter] path. *)
Definition validate_host (is_ip : string -> bool) (h : string) : bool :=
  is_ip h
  || negb (String.eqb h EmptyString || String.prefix "." h
           || match h with
              | EmptyString => false
              | _ => String.eqb (String.substring (String.length h - 1) 1 h) "."
              end
           || contains " " h).

(** The [scan] command: its exit status and console trace.  A
    [typer.BadParameter] is a usage error (status 2); [typer.Exit(code=1)]
    is status 1; an exception escaping the command is status 1. *)
Definition scan_cmd (is_ip : string -> bool) (nw : net) (target : string)
    (ports_str : option string) (timeout : Q) : Z * list event :=
  if negb (validate_host is_ip target) then
    (2, [Error ("Invalid hostname or IP address: '" ++ target ++ "'")])
  else
    match Ports.parse_ports ports_str with
    | inl msg => (1, [Error msg])
    | inr parsed_ports =>
        match run (scan_ports nw target parsed_ports timeout) with
        | (Ret _, tr) => (0, tr)
        | (Raise _, tr) => (1, tr)
        end
    end.

End Scan.

(* ------------------------------------------------------------------ *)
(** ** [ping_host] (core/discovery.py) *)

Module Ping.

(** The objects [pythonping.ping] hands back.  A [Response] carries a
    [message], which is [None] (no reply) or a [Message] object
    (destination, ICMP packet, source); [success] is [error_message is None],
    and [error_message] is [None] exactly for an echo reply (type 0,
    code 0).  [packet_error] is pythonping's description of any other ICMP
    type/code; [time_elapsed_ms] is the library's rounded RTT. *)
Record icmp_packet := {
  message_type : Z;
  message_code : Z;
  packet_error : string
}.

Record message := {
  msg_target : string;
  msg_packet : icmp_packet;
  msg_source : string
}.

Record response := {
  resp_message : option message;
  time_elapsed_ms : Q
}.

Definition error_message (r : response) : option string :=
  match resp_message r with
  | None => Some "No response"
  | Some m =>
      if (message_type (msg_packet m) =? 0) && (message_code (msg_packet m) =? 0)
      then None else Some (packet_error (msg_packet m))
  end.

Definition success (r : response) : bool :=
  match error_message r with None => true | Some _ => false end.

(** [response.message.split()]: [split] is a method of [str]; a [Message]
    object (or [None]) has no such attribute. *)
Definition message_split (m : option message) : M (list string) :=
  match m with
  | None => raise (AttributeError "'NoneType' object has no attribute 'split'")
  | Some _ => raise (AttributeError "'Message' object has no attribute 'split'")
  end.

(** [l[i]] *)
Definition index {A} (l : list A) (i : nat) : M A :=
  match nth_error l i with
  | Some x => ret x
  | None => raise (IndexError "list index out of range")
  end.

(** [s[:-1]] *)
Definition drop_last (s : string) : string :=
  String.substring 0 (String.length s - 1) s.

(** The reply line of a successful response, evaluated left to right as
    the f-string does; the RTT is rendered by [rtt_text]. *)
Definition reply_line (rtt_text : Q -> string) (r : response) : M event :=
  w1 <- message_split (resp_message r) ;;
  a <- index w1 2 ;;
  w2 <- message_split (resp_message r) ;;
  b <- index w2 3 ;;
  w3 <- message_split (resp_message r) ;;
  c <- index w3 4 ;;
  t <- index (PyStr.split "=" c) 1 ;;
  ret (Print ("Reply from " ++ drop_last a ++ ": bytes=" ++ b ++ " time="
              ++ rtt_text (time_elapsed_ms r) ++ "ms TTL=" ++ t)).

(** Loop state: [total_rtt], [successful_pings], [min_rtt] ([None] is
    [float('inf')]), [max_rtt], [all_successful]. *)
Record acc := {
  total_rtt : Q;
  successful_pings : Z;
  min_rtt : option Q;
  max_rtt : Q;
  all_successful : bool
}.

Definition acc0 : acc :=
  {| total_rtt := 0; successful_pings := 0; min_rtt := None; max_rtt := 0;
     all_successful := true |}.

Definition qmin (m : option Q) (x : Q) : Q :=
  match m with None => x | Some y => if Qle_bool y x then y else x end.

Definition qmax (y x : Q) : Q := if Qle_bool x y then y else x.

Definition failure_line (r : response) : event :=
  Print ("[red]Request timed out or host unreachable: "
         ++ match error_message r with Some m => m | None => "None" end ++ "[/red]").

Fixpoint ping_loop (rtt_text : Q -> string) (rs : list response) (a : acc) : M acc :=
  match rs with
  | [] => ret a
  | r :: rest =>
      if success r then
        let rtt := time_elapsed_ms r in
        let a' := {| total_rtt := (total_rtt a + rtt)%Q;
                     successful_pings := successful_pings a + 1;
                     min_rtt := Some (qmin (min_rtt a) rtt);
                     max_rtt := qmax (max_rtt a) rtt;
                     all_successful := all_successful a |} in
        line <- reply_line rtt_text r ;;
        emit line ;;
        ping_loop rtt_text rest a'
      else
        emit (failure_line r) ;;
        ping_loop rtt_text rest
          {| total_rtt := total_rtt a; successful_pings := successful_pings a;
             min_rtt := min_rtt a; max_rtt := max_rtt a; all_successful := false |}
  end.

(** Python's [/] on numbers *)
Definition truediv (x y : Q) : M Q :=
  if Qeq_bool y 0 then raise (ZeroDivisionError "division by zero") else ret (x / y)%Q.

(** [ping_host(target, count, timeout, verbose)].  [pinged] is the outcome
    of [execute_ping(target, count=count, timeout=timeout, verbose=verbose)]:
    the response list, or the exception it raised. *)
Definition ping_host (rtt_text : Q -> string) (target : string) (count timeout : Z)
    (verbose : bool) (pinged : exc + list response) : M bool :=
  emit (Info ("Pinging " ++ target ++ " with " ++ str_of_Z count ++ " packets, timeout "
              ++ str_of_Z timeout ++ "s...")) ;;
  try_except
    (response_list <- (match pinged with inl e => raise e | inr rs => ret rs end) ;;
     a <- ping_loop rtt_text response_list acc0 ;;
     if 0 <? successful_pings a then
       avg_rtt <- truediv (total_rtt a) (inject_Z (successful_pings a)) ;;
       emit (Success (nl ++ "Ping statistics for " ++ target ++ ":")) ;;
       loss <- truediv (inject_Z (count - successful_pings a)) (inject_Z count) ;;
       emit (PingStats count (successful_pings a) (count - successful_pings a)
               (loss * 100)%Q
               (match min_rtt a with Some m => m | None => 0 end)
               (max_rtt a) avg_rtt) ;;
       ret true
     else
       emit (Error (nl ++ "No successful pings to " ++ target ++ ".")) ;;
       ret false)
    (fun e =>
       emit (Error ("Error pinging " ++ target ++ ": " ++ exc_str e)) ;;
       ret false).

End Ping.

(* ------------------------------------------------------------------ *)
(** ** [resolve_hostname] (core/dns_utils.py) *)

Module Dns.

Definition SUPPORTED_RECORD_TYPES : list string :=
  ["A"; "AAAA"; "MX"; "NS"; "CNAME"; "TXT"; "SOA"; "SRV"].

(** [str.upper] on one character: a-z and the Latin-1 letters whose upper
    case is again one Latin-1 letter. *)
Definition upper_char (c : ascii) : ascii :=
  let n := nat_of_ascii c in
  if ((97 <=? n) && (n <=? 122))%nat || ((224 <=? n) && (n <=? 254) && negb (n =? 247))%nat
  then ascii_of_nat (n - 32) else c.

(** [str.upper]: ß (223) becomes "SS".  µ (181) and ÿ (255) upper-case to
    code points outside Latin-1, which these strings do not hold; they are
    left as they are, and [upper_exact] tells the strings without them. *)
Fixpoint upper (s : string) : string :=
  match s with
  | EmptyString => EmptyString
  | String c r =>
      if (nat_of_ascii c =? 223)%nat then String "S" (String "S" (upper r))
      else String (upper_char c) (upper r)
  end.

Definition upper_exact (s : string) : bool :=
  forallb (fun c => negb ((nat_of_ascii c =? 181) || (nat_of_ascii c =? 255))%nat)
    (list_ascii_of_string s).

(** A three-digit decimal escape [\DDD] *)
Definition escape_ddd (c : ascii) : string :=
  let n := Z.of_nat (nat_of_ascii c) in
  String "\" (String (digit_char (n / 100)) (String (digit_char ((n / 10) mod 10))
    (String (digit_char (n mod 10)) EmptyString))).

(** dnspython's [dns.name._escapify] on a label (bytes) *)
Fixpoint escapify_label (l : string) : string :=
  match l with
  | EmptyString => EmptyString
  | String c r =>
      let n := nat_of_ascii c in
      (if contains c (quote ++ "().;\@$") then String "\" (String c EmptyString)
       else if ((32 <? n) && (n <? 127))%nat then String c EmptyString
       else escape_ddd c) ++ escapify_label r
  end.

(** dnspython's [dns.rdata._escapify] on a TXT character-string *)
Fixpoint escapify_qstring (l : string) : string :=
  match l with
  | EmptyString => EmptyString
  | String c r =>
      let n := nat_of_ascii c in
      (if contains c (quote ++ "\") then String "\" (String c EmptyString)
       else if ((32 <=? n) && (n <? 127))%nat then String c EmptyString
       else escape_ddd c) ++ escapify_qstring r
  end.

(** A [dns.name.Name]: its labels, an absolute name ending in the empty
    root label. *)
Definition dns_name := list string.

Definition is_absolute (n : dns_name) : bool :=
  match last n "x" with EmptyString => true | _ => false end && negb (match n with [] => true | _ => false end).

(** [Name.to_text(omit_final_dot)] *)
Definition name_to_text (n : dns_name) (omit_final_dot : bool) : string :=
  match n with
  | [] => "@"
  | [EmptyString] => "."
  | _ =>
      let l := if omit_final_dot && is_absolute n then removelast n else n in
      join "." (map escapify_label l)
  end.

(** Rdata of the supported types, with the fields dnspython exposes. *)
Inductive rdata :=
| RA (address : string)
| RAAAA (address : string)
| RNS (target : dns_name)
| RCNAME (target : dns_name)
| RMX (preference : Z) (exchange : dns_name)
| RSOA (mname rname : dns_name) (serial refresh retry expire minimum : Z)
| RTXT (strings : list string)
| RSRV (priority weight port : Z) (target : dns_name).

Definition rdata_class (rd : rdata) : string :=
  match rd with
  | RA _ => "A" | RAAAA _ => "AAAA" | RNS _ => "NS" | RCNAME _ => "CNAME"
  | RMX _ _ => "MX" | RSOA _ _ _ _ _ _ _ => "SOA" | RTXT _ => "TXT"
  | RSRV _ _ _ _ => "SRV"
  end.

(** [rdata.to_text(omit_final_dot=...)] as dnspython 2.9 defines [to_text]
    ([origin] and [relativize] are [None] and [True]): the NS and CNAME
    classes pass the keyword on to [target.to_text].  [format_answer]
    formats MX, SOA, SRV and TXT answers itself and calls this only for
    the other types; the MX, SOA and SRV cases here print their names with
    the final dot. *)
Definition rdata_to_text (omit_final_dot : bool) (rd : rdata) : string :=
  match rd with
  | RA a | RAAAA a => a
  | RNS t | RCNAME t => name_to_text t omit_final_dot
  | RMX p e => str_of_Z p ++ " " ++ name_to_text e false
  | RSOA m r s rf rt ex mn =>
      name_to_text m false ++ " " ++ name_to_text r false ++ " " ++ str_of_Z s ++ " "
      ++ str_of_Z rf ++ " " ++ str_of_Z rt ++ " " ++ str_of_Z ex ++ " " ++ str_of_Z mn
  | RTXT ss => join " " (map (fun s => quote ++ escapify_qstring s ++ quote) ss)
  | RSRV p w pt t =>
      str_of_Z p ++ " " ++ str_of_Z w ++ " " ++ str_of_Z pt ++ " " ++ name_to_text t false
  end.

Definition no_attr (rd : rdata) (attr : string) : exc :=
  AttributeError ("'" ++ rdata_class rd ++ "' object has no attribute '" ++ attr ++ "'").

(** The resolver and the codec as seen by [resolve_hostname]:
    [resolve h t] is [resolver.resolve(h, t)] (its answers, or the exception
    raised), [decode_utf8 b] is [b.decode('utf-8')]. *)
Record dns_env := {
  resolve : string -> string -> exc + list rdata;
  decode_utf8 : string -> exc + string
}.

Fixpoint decode_all (env : dns_env) (ss : list string) : exc + list string :=
  match ss with
  | [] => inr []
  | s :: r =>
      match decode_utf8 env s with
      | inl e => inl e
      | inr t => match decode_all env r with inl e => inl e | inr ts => inr (t :: ts) end
      end
  end.

(** The answer text appended for one rdata, by [r_type.upper()]. *)
Definition format_answer (env : dns_env) (rt : string) (rd : rdata) : exc + string :=
  if String.eqb rt "MX" then
    match rd with
    | RMX p e => inr ("Preference: " ++ str_of_Z p ++ ", Exchange: " ++ name_to_text e true)
    | _ => inl (no_attr rd "preference")
    end
  else if String.eqb rt "SOA" then
    match rd with
    | RSOA m r s _ _ _ _ =>
        inr ("MNAME: " ++ name_to_text m true ++ ", " ++ "RNAME: " ++ name_to_text r true
             ++ ", " ++ "Serial: " ++ str_of_Z s)
    | _ => inl (no_attr rd "mname")
    end
  else if String.eqb rt "TXT" then
    match rd with
    | RTXT ss => match decode_all env ss with inl e => inl e | inr ts => inr (join " " ts) end
    | _ => inl (no_attr rd "strings")
    end
  else if String.eqb rt "SRV" then
    match rd with
    | RSRV p w pt t =>
        inr ("Priority: " ++ str_of_Z p ++ ", Weight: " ++ str_of_Z w ++ ", "
             ++ "Port: " ++ str_of_Z pt ++ ", Target: " ++ name_to_text t true)
    | _ => inl (no_attr rd "priority")
    end
  else inr (rdata_to_text true rd).

(** The [results] dict, in insertion order *)
Definition dict := list (string * list string).

Definition dict_init (keys : list string) : dict :=
  fold_left (fun d k => if existsb (fun '(k', _) => String.eqb k k') d then d
                        else (d ++ [(k, [])])%list) keys [].

(** [d[k].append(v)]; [None] is a [KeyError] *)
Fixpoint dict_append (k v : string) (d : dict) : option dict :=
  match d with
  | [] => None
  | (k', vs) :: r =>
      if String.eqb k k' then Some ((k', (vs ++ [v])%list) :: r)
      else option_map (cons (k', vs)) (dict_append k v r)
  end.

Definition append (k v : string) (d : dict) : M dict :=
  match dict_append k v d with Some d' => ret d' | None => raise (KeyError k) end.

(** [for rdata in answers: results[r_type].append(...)]: appends are kept
    when a later answer raises; the exception is returned with them. *)
Fixpoint append_answers (env : dns_env) (r_type rt : string) (answers : list rdata)
    (d : dict) : dict * option exc :=
  match answers with
  | [] => (d, None)
  | rd :: rest =>
      match format_answer env rt rd with
      | inl e => (d, Some e)
      | inr s =>
          match dict_append r_type s d with
          | Some d' => append_answers env r_type rt rest d'
          | None => (d, Some (KeyError r_type))
          end
      end
  end.

(** The [except] clauses of the per-type [try] *)
Definition handle (hostname r_type : string) (e : exc) (d : dict) : M dict :=
  match e with
  | NXDOMAIN _ =>
      emit (Error ("Hostname " ++ hostname ++ " not found (NXDOMAIN) for type " ++ r_type ++ ".")) ;;
      append r_type "NXDOMAIN" d
  | NoAnswer _ => print_warning_unbound
  | DnsTimeout _ =>
      emit (Error ("DNS query timed out for " ++ hostname ++ ", type " ++ r_type ++ ".")) ;;
      append r_type "Timeout" d
  | _ =>
      emit (Error ("Error resolving " ++ hostname ++ " for type " ++ r_type ++ ": " ++ exc_str e)) ;;
      append r_type ("Error: " ++ exc_str e) d
  end.

Fixpoint resolve_loop (env : dns_env) (hostname : string) (types : list string) (d : dict)
    : M dict :=
  match types with
  | [] => ret d
  | r_type :: rest =>
      let rt := upper r_type in
      if negb (existsb (String.eqb rt) SUPPORTED_RECORD_TYPES) then
        emit (Error ("Unsupported record type: " ++ r_type ++ ". Skipping.")) ;;
        resolve_loop env hostname rest d
      else
        emit (Query hostname rt) ;;
        let '(d1, err) :=
          match resolve env hostname rt with
          | inl e => (d, Some e)
          | inr answers => append_answers env r_type rt answers d
          end in
        d2 <- (match err with None => ret d1 | Some e => handle hostname r_type e d1 end) ;;
        resolve_loop env hostname rest d2
  end.

Definition table_rows (d : dict) : list (string * string) :=
  flat_map (fun '(r_type, r_values) =>
              match r_values with
              | [] => [(upper r_type, "No data")]
              | _ => map (fun v => (upper r_type, v)) r_values
              end) d.

Definition resolve_hostname (env : dns_env) (hostname : string) (record_types : list string)
    : M dict :=
  let results := dict_init record_types in
  emit (Info ("Performing DNS lookup for " ++ hostname ++ ", types: "
              ++ join ", " record_types ++ "...")) ;;
  results <- resolve_loop env hostname record_types results ;;
  (match table_rows results with
   | [] => print_warning_unbound
   | rows => emit (Table ("DNS Records for " ++ hostname) rows)
   end) ;;
  ret results.

End Dns.

(* ------------------------------------------------------------------ *)
(** ** Port specifications as the spec describes them *)

Module PortSpec.
Import Ports.

(** A segment of a port specification: a single port or an [A-B] range. *)
Inductive seg := Single (n : Z) | Range (a b : Z).

Definition render_seg (s : seg) : string :=
  match s with
  | Single n => str_of_Z n
  | Range a b => str_of_Z a ++ "-" ++ str_of_Z b
  end.

(** The comma-separated text of a list of segments *)
Definition render_spec (segs : list seg) : string := join "," (map render_seg segs).

Definition seg_valid (s : seg) : Prop :=
  match s with
  | Single n => 1 <= n <= 65535
  | Range a b => 1 <= a /\ a <= b /\ b <= 65535
  end.

(** The ports a segment denotes *)
Definition seg_ports (s : seg) : list Z :=
  match s with
  | Single n => [n]
  | Range a b => py_range a (b + 1)
  end.

(** A stripped, non-empty segment text is malformed when it is not an
    integer in [1, 65535], or (when it contains [-]) when an endpoint is
    not an integer, lies outside [1, 65535], or the start exceeds the end. *)
Definition malformed (t : string) : Prop :=
  t <> EmptyString /\
  match split_once "-" t with
  | None =>
      match py_int t with
      | None => True
      | Some n => ~ (1 <= n <= 65535)
      end
  | Some (a, b) =>
      match py_int a, py_int b with
      | Some x, Some y => ~ (1 <= x <= 65535) \/ ~ (1 <= y <= 65535) \/ x > y
      | _, _ => True
      end
  end.

Definition blank (p : string) : bool :=
  match strip p with EmptyString => true | _ => false end.

(** [p s] holds for every character of [s] *)
Fixpoint str_forall (p : ascii -> bool) (s : string) : bool :=
  match s with EmptyString => true | String c r => p c && str_forall p r end.

(** [parts] as [split] leaves them, the first one prefixed with [s] *)
Definition prepend (s : string) (parts : list string) : list string :=
  match parts with p :: ps => (s ++ p) :: ps | [] => [s] end.

(** The value of a string of decimal digits, read after [a] *)
Fixpoint dval (s : string) (a : Z) : Z :=
  match s with EmptyString => a | String c r => dval r (a * 10 + digit_value c) end.

End PortSpec.

(* ------------------------------------------------------------------ *)
(** ** DNS answer texts as the spec describes them *)

Module DnsSpec.
Import Dns.






End DnsSpec.

(* ------------------------------------------------------------------ *)
(** ** Concrete environments used to evaluate the embedding *)

Module Scenarios.
Import Scan Ping Dns.

(** [host] resolves to 10.0.0.1, where only port 80 (http) accepts. *)
Definition nw_http : net := {|
  gethostbyname := fun h => if String.eqb h "host" then Resolved "10.0.0.1" else Gaierror;
  connect_ex := fun _ _ p => if p =? 80 then 0 else 111;
  getservbyport := fun p => if p =? 80 then Service "http" else ServiceOSError
|}.


Definition echo_reply : icmp_packet :=
  {| message_type := 0; message_code := 0; packet_error := EmptyString |}.

Definition reply (rtt : Q) : response :=
  {| resp_message := Some {| msg_target := "8.8.8.8"; msg_packet := echo_reply;
                             msg_source := "8.8.8.8" |};
     time_elapsed_ms := rtt |}.

Definition no_reply : response := {| resp_message := None; time_elapsed_ms := 2000 |}.

Definition example_com : dns_name := ["example"; "com"; EmptyString].

(** [example.com]: NS a.iana-servers.net., MX 10 mail.example.com., an A
    record, no AAAA record; www.example.com is a CNAME of example.com. *)
Definition env_example (dec : string -> exc + string) : dns_env := {|
  resolve := fun h t =>
    if String.eqb t "NS" then inr [RNS ["a"; "iana-servers"; "net"; EmptyString]]
    else if String.eqb t "MX" then inr [RMX 10 ("mail" :: example_com)]
    else if String.eqb t "CNAME" then
      (if String.eqb h "www.example.com" then inr [RCNAME example_com]
       else inl (NoAnswer "The DNS response does not contain an answer to the question"))
    else if String.eqb t "A" then inr [RA "93.184.215.14"]
    else inl (NoAnswer "The DNS response does not contain an answer to the question");
  decode_utf8 := dec
|}.

End Scenarios.

(* ------------------------------------------------------------------ *)
(** ** [get_canonical_name] (core/dns_utils.py) and the [dns] command (cli.py) *)

Module DnsCmd.
Import Scan Dns.

(** [str.lower] on A-Z and the Latin-1 capitals (the multiplication sign excepted) *)
Definition lower_char (c : ascii) : ascii :=
  let n := nat_of_ascii c in
  if ((65 <=? n) && (n <=? 90))%nat || ((192 <=? n) && (n <=? 222) && negb (n =? 215))%nat
  then ascii_of_nat (n + 32) else c.

Fixpoint lower (s : string) : string :=
  match s with EmptyString => EmptyString | String c r => String (lower_char c) (lower r) end.

(** [get_canonical_name(hostname)]: [gethostbyname_ex h] is the canonical
    name [socket.gethostbyname_ex(h)[0]], or the exception raised
    ([socket.gaierror] or another one, both swallowed). *)
Definition get_canonical_name (gethostbyname_ex : string -> exc + string) (hostname : string)
    : option string :=
  match gethostbyname_ex hostname with
  | inr cname => if negb (String.eqb cname hostname) then Some cname else None
  | inl _ => None
  end.

(** [t in dns_utils.SUPPORTED_RECORD_TYPES] *)
Definition supported (t : string) : bool := existsb (String.eqb t) SUPPORTED_RECORD_TYPES.

Definition supported_text : string := join ", " SUPPORTED_RECORD_TYPES.

Definition alias_line (hostname cname : string) : event :=
  Print ("[dim]" ++ hostname ++ " is an alias for [bold cyan]" ++ cname
         ++ "[/bold cyan][/dim]").

(** The [dns] command: its exit status and console trace.  [types0] is the
    list of [-t] options, [[]] when none is given.  A [typer.BadParameter]
    from [_validate_host] is status 2, [typer.Exit(code=1)] status 1, an
    exception escaping [resolve_hostname] status 1. *)
Definition dns_cmd (is_ip : string -> bool) (gethostbyname_ex : string -> exc + string)
    (env : dns_env) (hostname : string) (types0 : list string) : Z * list event :=
  if negb (validate_host is_ip hostname) then
    (2, [Error ("Invalid hostname or IP address: '" ++ hostname ++ "'")])
  else
    let types := match types0 with [] => ["A"; "AAAA"; "MX"] | _ => types0 end in
    let valid_types := map upper (filter (fun t => supported (upper t)) types) in
    let invalid_types := filter (fun t => negb (supported (upper t))) types in
    let tr1 :=
      match invalid_types with
      | [] => []
      | _ =>
          Error ("Unsupported DNS record type(s): " ++ join ", " invalid_types
                 ++ ". Supported are: " ++ supported_text)
          :: match valid_types with
             | [] => []
             | _ => [Print ("[yellow]Ignoring invalid types and proceeding with: "
                            ++ join ", " valid_types ++ "[/yellow]")]
             end
      end in
    match invalid_types, valid_types with
    | _ :: _, [] => (1, tr1)
    | [], [] =>
        (1, (tr1 ++ [Error ("No valid DNS record types specified. Supported are: "
                           ++ supported_text)])%list)
    | _, _ =>
        let tr2 :=
          if existsb (fun t => existsb (String.eqb t) valid_types) ["A"; "AAAA"] then
            match get_canonical_name gethostbyname_ex hostname with
            | Some cname =>
                if negb (String.eqb cname "") && negb (String.eqb (lower cname) (lower hostname))
                then [alias_line hostname cname] else []
            | None => []
            end
          else [] in
        match resolve_hostname env hostname valid_types (tr1 ++ tr2)%list with
        | (Ret _, tr) => (0, tr)
        | (Raise _, tr) => (1, tr)
        end
    end.

(** The sentinel [resolve_hostname] appends for a failed query (the
    [NoAnswer] clause appends nothing: it raises). *)
Definition sentinel (e : exc) : list string :=
  match e with
  | NXDOMAIN _ => ["NXDOMAIN"]
  | DnsTimeout _ => ["Timeout"]
  | NoAnswer _ => []
  | _ => ["Error: " ++ exc_str e]
  end.

Definition is_no_answer (e : exc) : bool :=
  match e with NoAnswer _ => true | _ => false end.

End DnsCmd.

(* ------------------------------------------------------------------ *)
(** ** [display_table] (utils/display.py) *)

Module Display.

(** A cell value of the displayed dicts: a string, or [None] *)
Inductive value := VS (s : string) | VNone.

(** [str(v)] *)
Definition py_str (v : value) : string := match v with VS s => s | VNone => "None" end.

(** A dict, in insertion order (keys distinct) *)
Definition row := list (string * value).

(** [row.get(key, default)] *)
Fixpoint get (r : row) (key : string) (default : value) : value :=
  match r with
  | [] => default
  | (k, v) :: r' => if String.eqb key k then v else get r' key default
  end.

(** What [display_table] puts on the console: the [print_warning] for no
    data, or a table with its title, header and rows of cells. *)
Inductive shown :=
| NoDataWarning
| Shown (title : option string) (columns : list string) (rows : list (list string)).

Definition display_table (data : list row) (title : option string)
    (columns : option (list string)) : shown :=
  match data with
  | [] => NoDataWarning
  | r0 :: _ =>
      let cols := match columns with None | Some [] => map fst r0 | Some cs => cs end in
      Shown title cols (map (fun rd => map (fun col => py_str (get rd col (VS ""))) cols) data)
  end.

End Display.

(* ------------------------------------------------------------------ *)
(** ** [get_interface_details] (core/interface_info.py) *)

Module Iface.
Import Display.

(** [snic.family]: [psutil.AF_LINK], [socket.AF_INET], [socket.AF_INET6]
    or another family. *)
Inductive family := AF_LINK | AF_INET | AF_INET6 | AF_OTHER (n : Z).

(** A [psutil] [snicaddr]: family, address, netmask ([None] possible) *)
Record snic := {
  snic_family : family;
  snic_address : string;
  snic_netmask : option string
}.

(** The [iface_info] dict of one interface *)
Record iface_info := {
  Interface : string;
  MAC_Address : string;
  IPv4_Address : string;
  IPv4_Netmask : value;
  IPv6_Address : string;
  Status : string
}.

(** [name in stats] and [stats[name].isup] *)
Fixpoint lookup_isup (stats : list (string * bool)) (name : string) : option bool :=
  match stats with
  | [] => None
  | (n, up) :: r => if String.eqb name n then Some up else lookup_isup r name
  end.

Definition info0 (stats : list (string * bool)) (name : string) : iface_info :=
  {| Interface := name; MAC_Address := ""; IPv4_Address := ""; IPv4_Netmask := VS "";
     IPv6_Address := "";
     Status := match lookup_isup stats name with
               | Some true => "Up" | Some false => "Down" | None => "N/A"
               end |}.

(** One iteration of [for snic in snic_list].  [interface_info.py] does not
    import [socket]: for a family other than [psutil.AF_LINK] the test
    [snic.family == socket.AF_INET] raises [NameError], so the [AF_INET] and
    [AF_INET6] branches are never reached. *)
Definition update_snic (i : iface_info) (s : snic) : exc + iface_info :=
  match snic_family s with
  | AF_LINK =>
      inr {| Interface := Interface i; MAC_Address := snic_address s;
             IPv4_Address := IPv4_Address i; IPv4_Netmask := IPv4_Netmask i;
             IPv6_Address := IPv6_Address i; Status := Status i |}
  | _ => inl (NameError "name 'socket' is not defined")
  end.

Fixpoint update_snics (i : iface_info) (snics : list snic) : exc + iface_info :=
  match snics with
  | [] => inr i
  | s :: rest =>
      match update_snic i s with
      | inl e => inl e
      | inr i' => update_snics i' rest
      end
  end.

(** [for name, snic_list in addresses.items()], appending to [ifaces_data]:
    the exception raised with the list built so far, or the whole list. *)
Fixpoint collect (stats : list (string * bool)) (addrs : list (string * list snic))
    (ifaces_data : list iface_info) : (exc * list iface_info) + list iface_info :=
  match addrs with
  | [] => inr ifaces_data
  | (name, snic_list) :: rest =>
      match update_snics (info0 stats name) snic_list with
      | inl e => inl (e, ifaces_data)
      | inr info => collect stats rest (ifaces_data ++ [info])%list
      end
  end.

Definition columns : list string :=
  ["Interface"; "Status"; "IP Address (IPv4)"; "Netmask (IPv4)"; "IP Address (IPv6)";
   "MAC Address"].

(** The dict as built, keys in insertion order *)
Definition to_row (i : iface_info) : row :=
  [("Interface", VS (Interface i)); ("MAC Address", VS (MAC_Address i));
   ("IP Address (IPv4)", VS (IPv4_Address i)); ("Netmask (IPv4)", IPv4_Netmask i);
   ("IP Address (IPv6)", VS (IPv6_Address i)); ("Status", VS (Status i))].

Inductive out := OInfo (msg : string) | OError (msg : string) | OTable (t : shown).

(** [get_interface_details()]: [addresses] and [stats] are the results of
    [psutil.net_if_addrs()] and [psutil.net_if_stats()] (in that order),
    or the exception raised; the console output and the returned list. *)
Definition get_interface_details (addresses : exc + list (string * list snic))
    (stats : exc + list (string * bool)) : list out * list iface_info :=
  let start := OInfo "Fetching local network interface information..." in
  let failed e data :=
    ([start; OError ("Could not retrieve interface information: " ++ exc_str e)], data) in
  match addresses with
  | inl e => failed e []
  | inr addrs =>
      match stats with
      | inl e => failed e []
      | inr st =>
          match collect st addrs [] with
          | inl (e, ifaces_data) => failed e ifaces_data
          | inr [] => ([start; OError "No network interfaces found or psutil could not retrieve them."], [])
          | inr ifaces_data =>
              ([start; OTable (display_table (map to_row ifaces_data)
                                 (Some "Network Interfaces") (Some columns))], ifaces_data)
          end
      end
  end.

End Iface.

(* ------------------------------------------------------------------ *)
(** ** More concrete environments *)

Module Scenarios2.
Import Dns Iface.

(** A resolver where A names do not exist, MX times out and TXT fails. *)
Definition env_failing : dns_env := {|
  resolve := fun _ t =>
    if String.eqb t "A" then inl (NXDOMAIN "The DNS query name does not exist")
    else if String.eqb t "MX" then inl (DnsTimeout "The DNS operation timed out")
    else inl (OtherError "NoNameservers" "All nameservers failed to answer the query");
  decode_utf8 := fun s => inr s
|}.

(** A resolver with two A records *)
Definition env_two_a : dns_env := {|
  resolve := fun _ t =>
    if String.eqb t "A" then inr [RA "10.0.0.1"; RA "10.0.0.2"]
    else inl (NXDOMAIN "The DNS query name does not exist");
  decode_utf8 := fun s => inr s
|}.

(** A resolver with three TXT records, the second holding the byte 0xff,
    which UTF-8 decoding rejects. *)
Definition env_txt : dns_env := {|
  resolve := fun _ t =>
    if String.eqb t "TXT" then
      inr [RTXT ["v=spf1 -all"]; RTXT [String (ascii_of_nat 255) EmptyString];
           RTXT ["site-verification=abc"]]
    else inl (NoAnswer "The DNS response does not contain an answer to the question");
  decode_utf8 := fun s =>
    match s with
    | String c _ =>
        if (nat_of_ascii c =? 255)%nat
        then inl (UnicodeDecodeError
                    "'utf-8' codec can't decode byte 0xff in position 0: invalid start byte")
        else inr s
    | EmptyString => inr s
    end
|}.

(** [psutil.net_if_addrs()] of a machine whose loopback has no
    link-layer address, then an interface with two link-layer addresses, a
    bridge with one, and a Wi-Fi interface with an IPv4 address. *)
Definition ifaces_example : list (string * list snic) :=
  [("lo", []);
   ("eth0", [{| snic_family := AF_LINK; snic_address := "aa:bb:cc:dd:ee:01"; snic_netmask := None |};
             {| snic_family := AF_LINK; snic_address := "aa:bb:cc:dd:ee:ff"; snic_netmask := None |}]);
   ("br0", [{| snic_family := AF_LINK; snic_address := "02:42:ac:11:00:01"; snic_netmask := None |}]);
   ("wlan0", [{| snic_family := AF_LINK; snic_address := "11:22:33:44:55:66"; snic_netmask := None |};
              {| snic_family := AF_INET; snic_address := "192.168.1.5";
                 snic_netmask := Some "255.255.255.0" |}])].

Definition stats_example : list (string * bool) := [("lo", true); ("eth0", true); ("wlan0", false)].

End Scenarios2.

(* ================================================================== *)
(** * Proofs *)

(** ** Facts on strings, decimal text and [_parse_ports] *)

Module PortFacts.
Import Ports PortSpec.

Lemma str_app_nil (s : string) : s ++ EmptyString = s.
Proof. induction s as [|c s IH]; simpl; congruence. Qed.

Lemma str_app_assoc (a b c : string) : (a ++ b) ++ c = a ++ (b ++ c).
Proof. induction a as [|x a IH]; simpl; congruence. Qed.

Lemma str_app_not_empty (s r : string) (c : ascii) : s ++ String c r <> EmptyString.
Proof. destruct s; discriminate. Qed.

Lemma str_forall_app p a b : str_forall p (a ++ b) = str_forall p a && str_forall p b.
Proof.
  induction a as [|c a IH]; simpl; [reflexivity|].
  rewrite IH, andb_assoc. reflexivity.
Qed.

Lemma str_forall_impl (p q : ascii -> bool) s :
  (forall c, p c = true -> q c = true) -> str_forall p s = true -> str_forall q s = true.
Proof.
  intros Hpq. induction s as [|c s IH]; simpl; [reflexivity|].
  intros H. apply andb_prop in H as [H1 H2]. rewrite (Hpq c H1), (IH H2). reflexivity.
Qed.

Lemma str_forall_contains p sep s :
  str_forall p s = true -> p sep = false -> contains sep s = false.
Proof.
  intros Hs Hsep. induction s as [|c s IH]; simpl in *; [reflexivity|].
  apply andb_prop in Hs as [H1 H2].
  destruct (Ascii.eqb c sep) eqn:E.
  - apply Ascii.eqb_eq in E. subst. congruence.
  - simpl. apply IH, H2.
Qed.

(** a decimal digit is neither blank nor a sign nor a separator *)
Lemma digit_not_special c :
  is_digit c = true ->
  is_space c = false /\ Ascii.eqb c "+" = false /\ Ascii.eqb c "-" = false.
Proof.
  destruct c as [[] [] [] [] [] [] [] []]; vm_compute;
    intro H; first [discriminate H | repeat split].
Qed.

Lemma digit_char_ok d :
  0 <= d <= 9 -> is_digit (digit_char d) = true /\ digit_value (digit_char d) = d.
Proof.
  intros H.
  assert (d = 0 \/ d = 1 \/ d = 2 \/ d = 3 \/ d = 4 \/ d = 5 \/ d = 6 \/ d = 7
          \/ d = 8 \/ d = 9) as Hd by lia.
  repeat (destruct Hd as [Hd | Hd]; [subst; split; reflexivity |]).
  subst; split; reflexivity.
Qed.

Local Opaque digit_char.

Lemma strip_id s :
  str_forall (fun c => negb (is_space c)) s = true -> strip s = s.
Proof.
  intros H. unfold strip.
  assert (Hl : lstrip s = s).
  { destruct s as [|c r]; simpl in *; [reflexivity|].
    apply andb_prop in H as [H1 _]. destruct (is_space c); [discriminate|reflexivity]. }
  rewrite Hl. clear Hl.
  induction s as [|c r IH]; simpl in *; [reflexivity|].
  apply andb_prop in H as [H1 H2]. rewrite (IH H2).
  destruct r; [destruct (is_space c); [discriminate|reflexivity] | reflexivity].
Qed.

(** *** [str(n)] *)

Lemma dec_acc_app f : forall n acc, dec_acc f n acc = dec_acc f n EmptyString ++ acc.
Proof.
  induction f as [|f IH]; intros n acc; simpl; [reflexivity|].
  destruct (n <? 10); [reflexivity|].
  rewrite (IH (n / 10) (String (digit_char (n mod 10)) acc)).
  rewrite (IH (n / 10) (String (digit_char (n mod 10)) EmptyString)).
  rewrite str_app_assoc. reflexivity.
Qed.

Lemma dval_app a b x : dval (a ++ b) x = dval b (dval a x).
Proof. revert x. induction a as [|c a IH]; intros x; simpl; [reflexivity|apply IH]. Qed.

Lemma digits_all s : forall a b,
  str_forall is_digit s = true -> s <> EmptyString -> digits s a b = Some (dval s a).
Proof.
  induction s as [|c s IH]; intros a b Hs Hne; [congruence|].
  simpl in *. apply andb_prop in Hs as [H1 H2]. rewrite H1.
  destruct s as [|c' s']; [reflexivity|].
  apply IH; [exact H2 | discriminate].
Qed.

Lemma dec_acc_digits f : forall n acc,
  0 <= n -> str_forall is_digit acc = true -> str_forall is_digit (dec_acc f n acc) = true.
Proof.
  induction f as [|f IH]; intros n acc Hn Hacc; simpl; [exact Hacc|].
  assert (Hd : is_digit (digit_char (n mod 10)) = true)
    by (apply digit_char_ok; pose proof (Z.mod_pos_bound n 10); lia).
  destruct (n <? 10).
  - simpl. rewrite Hd, Hacc. reflexivity.
  - apply IH; [apply Z.div_pos; lia|]. simpl. rewrite Hd, Hacc. reflexivity.
Qed.

Lemma dec_acc_value f : forall n,
  0 <= n < 10 ^ Z.of_nat f -> dval (dec_acc f n EmptyString) 0 = n.
Proof.
  induction f as [|f IH]; intros n Hn.
  - simpl in *. lia.
  - pose proof (Z.mod_pos_bound n 10) as Hm.
    destruct (digit_char_ok (n mod 10) ltac:(lia)) as [_ Hv].
    simpl. destruct (Z.ltb_spec n 10) as [Hlt|Hge].
    + simpl. rewrite Hv. rewrite Z.mod_small by lia. reflexivity.
    + rewrite dec_acc_app, dval_app, IH.
      * simpl. rewrite Hv. pose proof (Z.div_mod n 10). lia.
      * rewrite Nat2Z.inj_succ, Z.pow_succ_r in Hn by lia.
        split; [apply Z.div_pos; lia|]. apply Z.div_lt_upper_bound; lia.
Qed.

Lemma dec_fuel n : 0 <= n -> n < 10 ^ Z.of_nat (S (Z.to_nat (Z.log2 n))).
Proof.
  intros Hn. pose proof (Z.log2_nonneg n) as Hl.
  rewrite Nat2Z.inj_succ, Z2Nat.id by lia.
  assert (H2 : n < 2 ^ Z.succ (Z.log2 n)).
  { destruct (Z.eq_dec n 0) as [->|Hnz]; [simpl; lia|].
    apply Z.log2_spec; lia. }
  assert (2 ^ Z.succ (Z.log2 n) <= 10 ^ Z.succ (Z.log2 n))
    by (apply Z.pow_le_mono_l; lia).
  lia.
Qed.

Lemma dec_props n :
  0 <= n ->
  str_forall is_digit (dec n) = true /\ dec n <> EmptyString /\ dval (dec n) 0 = n.
Proof.
  intros Hn. unfold dec. split; [|split].
  - apply dec_acc_digits; [exact Hn | reflexivity].
  - simpl. destruct (n <? 10); [discriminate|].
    rewrite dec_acc_app. apply str_app_not_empty.
  - apply dec_acc_value. split; [exact Hn | apply dec_fuel, Hn].
Qed.

Lemma str_of_Z_dec n : 0 <= n -> str_of_Z n = dec n.
Proof. intros Hn. unfold str_of_Z. destruct (Z.ltb_spec n 0); [lia | reflexivity]. Qed.

Lemma digits_no_space s :
  str_forall is_digit s = true -> str_forall (fun c => negb (is_space c)) s = true.
Proof.
  apply str_forall_impl. intros c Hc.
  destruct (digit_not_special c Hc) as [-> _]. reflexivity.
Qed.

Lemma str_of_Z_props n :
  0 <= n ->
  strip (str_of_Z n) = str_of_Z n /\ str_of_Z n <> EmptyString
  /\ py_int (str_of_Z n) = Some n
  /\ str_forall is_digit (str_of_Z n) = true.
Proof.
  intros Hn. rewrite str_of_Z_dec by exact Hn.
  destruct (dec_props n Hn) as (Hd & Hne & Hv).
  assert (Hs : strip (dec n) = dec n) by (apply strip_id, digits_no_space, Hd).
  repeat split; try assumption.
  unfold py_int. rewrite Hs.
  destruct (dec n) as [|c r] eqn:E; [congruence|].
  simpl in Hd. apply andb_prop in Hd as [Hc Hr].
  destruct (digit_not_special c Hc) as (_ & -> & ->).
  rewrite digits_all; [rewrite Hv; reflexivity | simpl; rewrite Hc, Hr; reflexivity | discriminate].
Qed.

(** *** splitting *)

Lemma split_once_none sep s : contains sep s = false -> split_once sep s = None.
Proof.
  induction s as [|c s IH]; simpl; intros H; [reflexivity|].
  apply orb_false_iff in H as [H1 H2]. rewrite H1, IH by exact H2. reflexivity.
Qed.

Lemma split_once_app sep s r :
  contains sep s = false -> split_once sep (s ++ String sep r) = Some (s, r).
Proof.
  induction s as [|c s IH]; simpl; intros H.
  - rewrite Ascii.eqb_refl. reflexivity.
  - apply orb_false_iff in H as [H1 H2]. rewrite H1, IH by exact H2. reflexivity.
Qed.

Lemma split_cons sep s : exists p ps, PyStr.split sep s = p :: ps.
Proof.
  induction s as [|c s (p & ps & IH)]; simpl; [eauto|].
  rewrite IH. destruct (Ascii.eqb c sep); eauto.
Qed.

Lemma split_app sep s r :
  contains sep s = false -> PyStr.split sep (s ++ r) = prepend s (PyStr.split sep r).
Proof.
  intros H. induction s as [|c s IH]; simpl.
  - destruct (split_cons sep r) as (p & ps & ->). reflexivity.
  - simpl in H. apply orb_false_iff in H as [H1 H2]. rewrite H1, (IH H2).
    destruct (split_cons sep r) as (p & ps & ->). reflexivity.
Qed.

Lemma split_sep sep r :
  PyStr.split sep (String sep r) = EmptyString :: PyStr.split sep r.
Proof. simpl. rewrite Ascii.eqb_refl. reflexivity. Qed.

Lemma split_join sep segs :
  segs <> [] -> Forall (fun s => contains sep s = false) segs ->
  PyStr.split sep (join (String sep EmptyString) segs) = segs.
Proof.
  intros Hne Hall. induction Hall as [|x xs Hx Hxs IH]; [congruence|].
  destruct xs as [|y ys].
  - simpl. rewrite <- (str_app_nil x) at 1. rewrite split_app by exact Hx.
    simpl. rewrite str_app_nil. reflexivity.
  - change (join (String sep EmptyString) (x :: y :: ys))
      with (x ++ String sep (join (String sep EmptyString) (y :: ys))).
    rewrite split_app by exact Hx. rewrite split_sep, IH by discriminate.
    simpl. rewrite str_app_nil. reflexivity.
Qed.

Lemma in_port_range_iff n : in_port_range n = true <-> 1 <= n <= 65535.
Proof. unfold in_port_range. rewrite andb_true_iff, Z.ltb_lt, Z.leb_le. lia. Qed.

(** *** one step of the [for part in parts] loop *)

Lemma parse_blank p rest ports :
  strip p = EmptyString -> parse_parts (p :: rest) ports = parse_parts rest ports.
Proof. intros H. cbn [parse_parts]. rewrite H. reflexivity. Qed.

Lemma parse_single t n rest ports :
  strip t = t -> t <> EmptyString -> split_once "-" t = None -> py_int t = Some n ->
  1 <= n <= 65535 -> parse_parts (t :: rest) ports = parse_parts rest (ports ++ [n]).
Proof.
  intros Hs Hne Hsp Hi Hr. destruct t as [|c r]; [congruence|].
  cbn [parse_parts]. rewrite Hs, Hsp, Hi.
  apply in_port_range_iff in Hr. rewrite Hr. reflexivity.
Qed.

Lemma parse_range t sa sb x y rest ports :
  strip t = t -> t <> EmptyString -> split_once "-" t = Some (sa, sb) ->
  py_int sa = Some x -> py_int sb = Some y -> 1 <= x -> x <= y -> y <= 65535 ->
  parse_parts (t :: rest) ports = parse_parts rest (ports ++ py_range x (y + 1)).
Proof.
  intros Hs Hne Hsp Hx Hy H1 H2 H3. destruct t as [|c r]; [congruence|].
  cbn [parse_parts]. rewrite Hs, Hsp, Hx, Hy.
  assert (Hc : in_port_range x && in_port_range y && (x <=? y) = true).
  { rewrite !andb_true_iff, !in_port_range_iff, Z.leb_le. lia. }
  rewrite Hc. reflexivity.
Qed.

(** the loop past [p] only depends on the rest through its results *)
Lemma parse_cons_rest p rest1 rest2 ports :
  (forall ports', parse_parts rest1 ports' = parse_parts rest2 ports') ->
  parse_parts (p :: rest1) ports = parse_parts (p :: rest2) ports.
Proof.
  intros H. cbn [parse_parts]. destruct (strip p) as [|c r]; [apply H|].
  destruct (split_once "-" (String c r)) as [[a b]|];
    [destruct (py_int a), (py_int b) | destruct (py_int (String c r))];
    repeat match goal with |- context [if ?b then _ else _] => destruct b end;
    first [reflexivity | apply H].
Qed.

(** a segment of the code is skipped, rejected as malformed, or accepted *)
Lemma parse_cons_cases p rest ports :
  (strip p = EmptyString /\ parse_parts (p :: rest) ports = parse_parts rest ports)
  \/ (malformed (strip p) /\
      exists msg, parse_parts (p :: rest) ports = inl msg
                  /\ (msg = range_error (strip p) \/ msg = number_error (strip p)))
  \/ (~ malformed (strip p) /\
      exists ports', parse_parts (p :: rest) ports = parse_parts rest ports').
Proof.
  cbn [parse_parts]. unfold malformed.
  destruct (strip p) as [|c r]; [left; split; reflexivity | right].
  destruct (split_once "-" (String c r)) as [[sa sb]|].
  - destruct (py_int sa) as [x|], (py_int sb) as [y|].
    + destruct (in_port_range x && in_port_range y && (x <=? y)) eqn:Hc.
      * right. split; [|eexists; reflexivity].
        intros [_ Hm]. rewrite !andb_true_iff, !in_port_range_iff, Z.leb_le in Hc. lia.
      * left. split; [split; [discriminate|] | eexists; split; [reflexivity | left; reflexivity]].
        destruct (in_port_range x) eqn:Ex; [|left; rewrite <- in_port_range_iff, Ex; discriminate].
        destruct (in_port_range y) eqn:Ey; [|right; left; rewrite <- in_port_range_iff, Ey; discriminate].
        right; right. simpl in Hc. apply Z.leb_gt in Hc. lia.
    + left. split; [split; [discriminate | exact I] | eexists; split; [reflexivity | left; reflexivity]].
    + left. split; [split; [discriminate | exact I] | eexists; split; [reflexivity | left; reflexivity]].
    + left. split; [split; [discriminate | exact I] | eexists; split; [reflexivity | left; reflexivity]].
  - destruct (py_int (String c r)) as [n|].
    + destruct (in_port_range n) eqn:Hn.
      * right. split; [|eexists; reflexivity].
        intros [_ Hm]. apply in_port_range_iff in Hn. contradiction.
      * left. split; [split; [discriminate|] | eexists; split; [reflexivity | right; reflexivity]].
        rewrite <- in_port_range_iff, Hn. discriminate.
    + left. split; [split; [discriminate | exact I] | eexists; split; [reflexivity | right; reflexivity]].
Qed.

Lemma parse_malformed_first parts : forall ports,
  (exists p, In p parts /\ malformed (strip p)) ->
  exists q msg, In q parts /\ malformed (strip q) /\ parse_parts parts ports = inl msg
                /\ (msg = range_error (strip q) \/ msg = number_error (strip q)).
Proof.
  induction parts as [|p rest IH]; intros ports (m & Hin & Hm); [destruct Hin|].
  destruct (parse_cons_cases p rest ports)
    as [(Hb & Hstep) | [(Hmal & msg & Hstep & Hmsg) | (Hok & ports' & Hstep)]].
  - destruct Hin as [<-|Hin]; [destruct Hm as [Hne _]; contradiction|].
    destruct (IH ports (ex_intro _ m (conj Hin Hm))) as (q & msg & Hq & Hmq & Hp & Hmsg).
    exists q, msg. rewrite Hstep. simpl. auto.
  - exists p, msg. simpl. auto.
  - destruct Hin as [<-|Hin]; [contradiction|].
    destruct (IH ports' (ex_intro _ m (conj Hin Hm))) as (q & msg & Hq & Hmq & Hp & Hmsg).
    exists q, msg. rewrite Hstep. simpl. auto.
Qed.

(** *** rendered specifications *)

Definition spec_char (c : ascii) : bool := is_digit c || Ascii.eqb c "-".

Lemma render_chars s :
  seg_valid s -> str_forall spec_char (render_seg s) = true /\ render_seg s <> EmptyString.
Proof.
  assert (Hd : forall n, 0 <= n -> str_forall spec_char (str_of_Z n) = true).
  { intros n Hn. destruct (str_of_Z_props n Hn) as (_ & _ & _ & H).
    revert H. apply str_forall_impl. unfold spec_char. intros c ->. reflexivity. }
  destruct s as [n|a b]; simpl; intros Hv.
  - split; [apply Hd; lia | apply str_of_Z_props; lia].
  - rewrite str_forall_app. simpl. rewrite !Hd by lia. split; [reflexivity | apply str_app_not_empty].
Qed.

Lemma spec_chars_strip t : str_forall spec_char t = true -> strip t = t.
Proof.
  intros H. apply strip_id. revert H. apply str_forall_impl.
  unfold spec_char. intros c Hc. apply orb_true_iff in Hc as [Hc|Hc].
  - destruct (digit_not_special c Hc) as [-> _]. reflexivity.
  - apply Ascii.eqb_eq in Hc. subst. reflexivity.
Qed.

Lemma parse_seg s rest ports :
  seg_valid s -> parse_parts (render_seg s :: rest) ports = parse_parts rest (ports ++ seg_ports s).
Proof.
  intros Hv. destruct (render_chars s Hv) as [Hc Hne].
  pose proof (spec_chars_strip _ Hc) as Hs.
  destruct s as [n|a b]; simpl in *.
  - destruct (str_of_Z_props n ltac:(lia)) as (_ & _ & Hi & Hdig).
    apply parse_single; auto.
    apply split_once_none, (str_forall_contains is_digit); [exact Hdig | reflexivity].
  - destruct (str_of_Z_props a ltac:(lia)) as (_ & _ & Ha & Hda).
    destruct (str_of_Z_props b ltac:(lia)) as (_ & _ & Hb & _).
    eapply parse_range; eauto; try lia.
    apply split_once_app, (str_forall_contains is_digit); [exact Hda | reflexivity].
Qed.

Lemma parse_render segs : forall ports,
  Forall seg_valid segs ->
  parse_parts (map render_seg segs) ports = inr (ports ++ List.concat (map seg_ports segs))%list.
Proof.
  induction segs as [|s segs IH]; intros ports Hv.
  - simpl. rewrite app_nil_r. reflexivity.
  - cbn [map List.concat]. inversion Hv as [|? ? Hs Hsegs]; subst.
    rewrite parse_seg by exact Hs. rewrite IH by exact Hsegs. rewrite app_assoc. reflexivity.
Qed.

Lemma split_render segs :
  segs <> [] -> Forall seg_valid segs -> PyStr.split "," (render_spec segs) = map render_seg segs.
Proof.
  intros Hne Hv. unfold render_spec. apply split_join.
  - destruct segs; [congruence | discriminate].
  - apply Forall_map. revert Hv. apply Forall_impl. intros s Hs.
    apply (str_forall_contains spec_char); [apply render_chars, Hs | reflexivity].
Qed.

Lemma render_spec_not_empty segs :
  segs <> [] -> Forall seg_valid segs -> render_spec segs <> EmptyString.
Proof.
  intros Hne Hv. destruct segs as [|s segs]; [congruence|].
  inversion Hv as [|? ? Hs _]; subst. destruct (render_chars s Hs) as [_ Hr].
  unfold render_spec. simpl. destruct (map render_seg segs) as [|x xs].
  - exact Hr.
  - destruct (render_seg s); [congruence | discriminate].
Qed.

Lemma seg_ports_not_nil s : seg_valid s -> seg_ports s <> [].
Proof.
  destruct s as [n|a b]; simpl; intros Hv; [discriminate|].
  unfold py_range. destruct (Z.to_nat (b + 1 - a)) eqn:E; [lia | discriminate].
Qed.

(** *** [sorted(list(ports))] *)

Lemma insert_uniq_in x l k : In k (insert_uniq x l) <-> x = k \/ In k l.
Proof.
  induction l as [|y l IH]; simpl; [tauto|].
  destruct (Z.ltb_spec x y); simpl; [tauto|].
  destruct (Z.eqb_spec x y); simpl; [subst; tauto|].
  rewrite IH. tauto.
Qed.

Lemma insert_uniq_hd y x l :
  HdRel Z.lt y l -> y < x -> HdRel Z.lt y (insert_uniq x l).
Proof.
  intros H Hyx. destruct l as [|z l]; simpl; [constructor; exact Hyx|].
  inversion H; subst.
  destruct (x <? z); [constructor; exact Hyx|].
  destruct (x =? z); constructor; assumption.
Qed.

Lemma insert_uniq_sorted x l : Sorted Z.lt l -> Sorted Z.lt (insert_uniq x l).
Proof.
  induction l as [|y l IH]; simpl; intros H; [repeat constructor|].
  apply Sorted_inv in H as [Hl Hhd].
  destruct (Z.ltb_spec x y); [constructor; [constructor; assumption | constructor; exact H]|].
  destruct (Z.eqb_spec x y); [constructor; assumption|].
  constructor; [apply IH, Hl | apply insert_uniq_hd; [exact Hhd | lia]].
Qed.

Lemma sorted_set_sorted l : Sorted Z.lt (sorted_set l).
Proof. induction l; simpl; [constructor | apply insert_uniq_sorted; assumption]. Qed.

Lemma sorted_set_in l k : In k (sorted_set l) <-> In k l.
Proof. induction l; simpl; [tauto|]. rewrite insert_uniq_in, IHl. tauto. Qed.

Lemma sorted_set_not_nil l : l <> [] -> sorted_set l <> [].
Proof.
  destruct l as [|x l]; [congruence|]. intros _. simpl.
  destruct (sorted_set l) as [|y r]; simpl; [discriminate|].
  destruct (x <? y); [discriminate|]. destruct (x =? y); discriminate.
Qed.

Lemma parse_filter_blank parts : forall ports,
  parse_parts parts ports = parse_parts (filter (fun p => negb (blank p)) parts) ports.
Proof.
  induction parts as [|p rest IH]; intros ports; [reflexivity|].
  cbn [filter]. unfold blank at 1. destruct (strip p) eqn:E; cbn [negb].
  - rewrite parse_blank by exact E. apply IH.
  - apply parse_cons_rest. exact IH.
Qed.

End PortFacts.

(** ** Claims on [_parse_ports] *)

Module PortClaims.
Import Ports PortSpec PortFacts.

(** C6: with no input [_parse_ports] returns the 19 default ports unchanged;
    on a comma-separated list of single ports and [A-B] ranges with
    endpoints in [1, 65535] and start <= end it returns exactly the
    specified ports, strictly ascending (so without duplicates);
    e.g. "80,443,1000-1002" and "80,80,443". *)
Theorem parse_ports_canonical :
  parse_ports None = inr default_ports /\ List.length default_ports = 19%nat /\
  (forall segs, segs <> [] -> Forall seg_valid segs ->
     exists ps, parse_ports (Some (render_spec segs)) = inr ps /\ Sorted Z.lt ps /\
                (forall k, In k ps <-> In k (List.concat (map seg_ports segs)))) /\
  parse_ports (Some "80,443,1000-1002") = inr [80; 443; 1000; 1001; 1002] /\
  parse_ports (Some "80,80,443") = inr [80; 443].
Proof.
  split; [reflexivity|]. split; [reflexivity|].
  split; [|split; vm_compute; reflexivity].
  intros segs Hne Hv.
  pose proof (render_spec_not_empty segs Hne Hv) as Hr.
  assert (Hc : List.concat (map seg_ports segs) <> []).
  { destruct segs as [|s segs]; [congruence|]. inversion Hv as [|? ? Hs _]; subst.
    cbn [map List.concat]. pose proof (seg_ports_not_nil s Hs).
    destruct (seg_ports s); [congruence | discriminate]. }
  unfold parse_ports. destruct (render_spec segs) as [|c r] eqn:E; [congruence|].
  rewrite <- E, split_render, parse_render by assumption. cbn [app].
  destruct (List.concat (map seg_ports segs)) as [|z zs]; [congruence|].
  eexists; split; [reflexivity|]. split; [apply sorted_set_sorted|].
  intros k. apply sorted_set_in.
Qed.

Lemma parse_ports_canonical_witness :
  [Single 80; Range 1000 1002] <> [] /\ Forall seg_valid [Single 80; Range 1000 1002] /\
  exists ps, parse_ports (Some (render_spec [Single 80; Range 1000 1002])) = inr ps
             /\ Sorted Z.lt ps
             /\ (forall k, In k ps <-> In k (List.concat (map seg_ports [Single 80; Range 1000 1002]))).
Proof.
  assert (Hne : [Single 80; Range 1000 1002] <> []) by discriminate.
  assert (Hv : Forall seg_valid [Single 80; Range 1000 1002])
    by (constructor; [simpl; lia | constructor; [simpl; lia | constructor]]).
  split; [exact Hne|]. split; [exact Hv|].
  destruct parse_ports_canonical as (_ & _ & H & _). exact (H _ Hne Hv).
Defined.

(** C7: if any comma-separated segment is malformed (not an integer, an
    endpoint outside [1, 65535], or a range with start > end), the whole
    parse fails with a message naming a malformed segment and no port set
    is returned; an accepted parse is never empty; "70000" and "5-3" are
    rejected. *)
Theorem parse_ports_fail_fast :
  (forall s, (exists p, In p (PyStr.split "," s) /\ malformed (strip p)) ->
     exists q msg, In q (PyStr.split "," s) /\ malformed (strip q)
                   /\ parse_ports (Some s) = inl msg
                   /\ exists pre post, msg = pre ++ strip q ++ post) /\
  (forall s ps, parse_ports (Some s) = inr ps -> ps <> []) /\
  parse_ports (Some "70000") = inl (number_error "70000") /\
  parse_ports (Some "5-3") = inl (range_error "5-3").
Proof.
  split; [|split; [|split; vm_compute; reflexivity]].
  - intros s Hex.
    destruct (parse_malformed_first (PyStr.split "," s) [] Hex)
      as (q & msg & Hq & Hm & Hp & Hmsg).
    exists q, msg. split; [exact Hq|]. split; [exact Hm|]. split.
    + unfold parse_ports. destruct s as [|c r].
      * simpl in Hq. destruct Hq as [<-|[]]. destruct Hm as [Hne _]. contradiction.
      * rewrite Hp. reflexivity.
    + destruct Hmsg as [->| ->]; eexists; eexists; reflexivity.
  - intros s ps H. unfold parse_ports in H. destruct s as [|c r].
    + injection H as <-. discriminate.
    + destruct (parse_parts (PyStr.split "," (String c r)) []) as [m|[|z zs]];
        [discriminate | discriminate |].
      injection H as <-. apply (sorted_set_not_nil (z :: zs)). discriminate.
Qed.

Lemma parse_ports_fail_fast_witness :
  (exists p, In p (PyStr.split "," "80,5-3") /\ malformed (strip p)) /\
  exists q msg, In q (PyStr.split "," "80,5-3") /\ malformed (strip q)
                /\ parse_ports (Some "80,5-3") = inl msg
                /\ exists pre post, msg = pre ++ strip q ++ post.
Proof.
  assert (Hex : exists p, In p (PyStr.split "," "80,5-3") /\ malformed (strip p)).
  { exists "5-3". split; [simpl; auto|].
    change (strip "5-3") with "5-3". unfold malformed. split; [discriminate|].
    replace (split_once "-" "5-3") with (Some ("5", "3")) by reflexivity.
    replace (py_int "5") with (Some 5) by reflexivity.
    replace (py_int "3") with (Some 3) by reflexivity.
    right; right; lia. }
  split; [exact Hex|]. destruct parse_ports_fail_fast as (H & _). exact (H _ Hex).
Defined.

(** C10: segments that are empty after [strip()] are skipped, not
    rejected: "80,,443" and "80,443," give [80; 443]; a non-empty
    specification made only of such segments (e.g. ",,") is rejected with
    "No valid ports specified.". *)
Theorem parse_ports_blank_segments :
  (forall parts ports,
     parse_parts parts ports = parse_parts (filter (fun p => negb (blank p)) parts) ports) /\
  parse_ports (Some "80,,443") = inr [80; 443] /\
  parse_ports (Some "80,443,") = inr [80; 443] /\
  parse_ports (Some ",,") = inl "No valid ports specified." /\
  (forall s, s <> EmptyString -> Forall (fun p => blank p = true) (PyStr.split "," s) ->
     parse_ports (Some s) = inl "No valid ports specified.").
Proof.
  split; [exact parse_filter_blank|].
  split; [vm_compute; reflexivity|]. split; [vm_compute; reflexivity|].
  split; [vm_compute; reflexivity|].
  intros s Hne Hall. unfold parse_ports. destruct s as [|c r]; [congruence|].
  rewrite parse_filter_blank.
  assert (Hf : forall l, Forall (fun p => blank p = true) l ->
                         filter (fun p => negb (blank p)) l = []).
  { intros l Hl. induction Hl as [|x l Hx _ IH]; [reflexivity|].
    cbn [filter]. rewrite Hx. exact IH. }
  rewrite (Hf _ Hall). reflexivity.
Qed.

Lemma parse_ports_blank_segments_witness :
  " , " <> EmptyString /\ Forall (fun p => blank p = true) (PyStr.split "," " , ") /\
  parse_ports (Some " , ") = inl "No valid ports specified.".
Proof.
  assert (H1 : " , " <> EmptyString) by discriminate.
  assert (H2 : Forall (fun p => blank p = true) (PyStr.split "," " , "))
    by (vm_compute; repeat constructor).
  split; [exact H1|]. split; [exact H2|].
  destruct parse_ports_blank_segments as (_ & _ & _ & _ & H). exact (H _ H1 H2).
Defined.

End PortClaims.

(** ** Claims on [scan_ports] and the [scan] command *)

Module ScanClaims.
Import Scan Scenarios.

Lemma emit_all_run l tr : emit_all l tr = (Ret tt, (tr ++ l)%list).
Proof.
  revert tr. induction l as [|e l IH]; intros tr; simpl; [rewrite app_nil_r; reflexivity|].
  unfold bind, emit. rewrite IH, <- app_assoc. reflexivity.
Qed.

(** The port loop probes every port once, in list order, and collects the
    ports whose connect succeeded, when the timeout and the ports pass the
    socket's checks. *)
Lemma scan_loop_run nw t ip ports : forall op cl tr,
  (ports = [] \/ settimeout t = None) -> Forall (fun p => check_port p = None) ports ->
  scan_loop nw t ip ports op cl tr =
  (Ret ((op ++ map (fun p => (p, "open",
                              match getservbyport nw p with
                              | Service name => name
                              | ServiceOSError | ServiceFailed => "unknown"
                              end))
                   (filter (fun p => connect_ex nw t ip p =? 0) ports))%list,
        cl + Z.of_nat (List.length (filter (fun p => negb (connect_ex nw t ip p =? 0)) ports))),
   (tr ++ flat_map (fun p => [Connect ip p; Close p]) ports)%list).
Proof.
  induction ports as [|p ports IH]; intros op cl tr Ht Hp.
  - simpl. rewrite !app_nil_r, Z.add_0_r. reflexivity.
  - destruct Ht as [Ht|Ht]; [discriminate|]. inversion Hp as [|? ? Hp1 Hps]; subst.
    cbn [scan_loop filter flat_map]. rewrite Ht, Hp1. unfold bind, emit.
    destruct (connect_ex nw t ip p =? 0); cbn [negb]; rewrite IH by auto.
    + rewrite <- !app_assoc. reflexivity.
    + cbn [List.length]. rewrite <- !app_assoc. f_equal. f_equal. f_equal. lia.
Qed.

(** When the loop returns, the timeout and every port passed the checks. *)
Lemma scan_loop_ret nw t ip ports : forall op cl tr r tr',
  scan_loop nw t ip ports op cl tr = (Ret r, tr') ->
  (ports = [] \/ settimeout t = None) /\ Forall (fun p => check_port p = None) ports.
Proof.
  induction ports as [|p ports IH]; intros op cl tr r tr' H; [split; [left|]; auto|].
  cbn [scan_loop] in H.
  destruct (settimeout t) eqn:Ht; [discriminate H|].
  destruct (check_port p) eqn:Hp; [discriminate H|].
  unfold bind, emit in H.
  destruct (connect_ex nw t ip p =? 0); apply IH in H as [_ Hps]; split; auto.
Qed.

(** C1 (as the code has it): when [scan_ports] returns for a resolvable
    target, its result holds one [(port, "open")] pair per port whose
    connect succeeded, in the order the ports were given; the service name
    of each open port is looked up ("unknown" when the lookup fails) and
    printed on the port's line, but it is not part of the returned
    records. *)
Theorem scan_ports_open_pairs nw target ports timeout ip l :
  gethostbyname nw target = Resolved ip ->
  fst (run (scan_ports nw target ports timeout)) = Ret l ->
  let opens := filter (fun p => connect_ex nw timeout ip p =? 0) ports in
  let closed := filter (fun p => negb (connect_ex nw timeout ip p =? 0)) ports in
  l = map (fun p => VTuple [VInt p; VStr "open"]) opens /\
  snd (run (scan_ports nw target ports timeout))
  = ([Info ("Scanning " ++ target ++ " (" ++ ip ++ ") for "
            ++ str_of_Z (Z.of_nat (List.length ports)) ++ " port(s)...")]
     ++ flat_map (fun p => [Connect ip p; Close p]) ports
     ++ [Success (nl ++ "Open ports on " ++ target ++ " (" ++ ip ++ "):")]
     ++ map (fun p => open_line (p, "open",
                                 match getservbyport nw p with
                                 | Service name => name
                                 | ServiceOSError | ServiceFailed => "unknown"
                                 end)) opens
     ++ [Info ("Summary: " ++ str_of_Z (Z.of_nat (List.length opens)) ++ " open, "
               ++ str_of_Z (Z.of_nat (List.length closed)) ++ " closed/filtered.")])%list.
Proof.
  intros Hres Hret opens closed. unfold run, scan_ports in Hret |- *. rewrite Hres in Hret |- *.
  unfold bind, emit in Hret |- *.
  destruct (scan_loop nw timeout ip ports [] 0 _) as [[r|e] tr'] eqn:E; [|discriminate Hret].
  destruct (scan_loop_ret _ _ _ _ _ _ _ _ _ E) as [Ht Hp].
  rewrite (scan_loop_run _ _ _ _ _ _ _ Ht Hp) in E. injection E as <- <-. cbn [app] in Hret |- *.
  subst opens closed.
  destruct (filter (fun p => connect_ex nw timeout ip p =? 0) ports) as [|p ps].
  - discriminate Hret.
  - cbn [map] in Hret |- *. rewrite emit_all_run in Hret |- *. cbn in Hret.
    injection Hret as <-. split.
    + cbn [map]. rewrite map_map. reflexivity.
    + unfold ret. cbn [snd map List.length]. rewrite !map_map, length_map.
      rewrite <- !app_assoc. reflexivity.
Qed.

Lemma scan_ports_open_pairs_witness :
  gethostbyname nw_http "host" = Resolved "10.0.0.1" /\
  fst (run (scan_ports nw_http "host" [22; 80; 443] 1)) = Ret [VTuple [VInt 80; VStr "open"]] /\
  [VTuple [VInt 80; VStr "open"]]
  = map (fun p => VTuple [VInt p; VStr "open"])
        (filter (fun p => connect_ex nw_http 1 "10.0.0.1" p =? 0) [22; 80; 443]).
Proof.
  assert (H1 : gethostbyname nw_http "host" = Resolved "10.0.0.1") by reflexivity.
  assert (H2 : fst (run (scan_ports nw_http "host" [22; 80; 443] 1))
               = Ret [VTuple [VInt 80; VStr "open"]]) by (vm_compute; reflexivity).
  split; [exact H1|]. split; [exact H2|].
  exact (proj1 (scan_ports_open_pairs _ _ _ _ _ _ H1 H2)).
Defined.

(** C1 as stated fails: with port 80 open the record returned is the pair
    [(80, "open")], not a [(port, status, service)] triple. *)
Lemma scan_ports_returns_pairs :
  fst (run (scan_ports nw_http "host" [22; 80] 1)) = Ret [VTuple [VInt 80; VStr "open"]] /\
  ~ (exists p status service,
       VTuple [VInt 80; VStr "open"] = VTuple [VInt p; VStr status; VStr service]).
Proof.
  split; [vm_compute; reflexivity|].
  intros (p & status & service & H). discriminate H.
Qed.




(** C3: on a resolvable target whose only probed port is closed,
    [scan_ports] probes the port, then raises [NameError] at
    [print_warning]: no summary is printed and no result is returned; the
    [scan] command ends with status 1. *)
Theorem scan_ports_all_closed_raises :
  run (scan_ports nw_http "host" [22] 1)
  = (Raise (NameError "name 'print_warning' is not defined"),
     [Info "Scanning host (10.0.0.1) for 1 port(s)..."; Connect "10.0.0.1" 22; Close 22]) /\
  fst (scan_cmd (fun _ => false) nw_http "host" (Some "22") 1) = 1.
Proof. split; vm_compute; reflexivity. Qed.

End ScanClaims.

(** ** Claims on [ping_host] *)

Module PingClaims.
Import Ping Scenarios.

Lemma ping_loop_failures rtt_text rs : forall a tr,
  Forall (fun r => success r = false) rs ->
  exists a', ping_loop rtt_text rs a tr = (Ret a', (tr ++ map failure_line rs)%list)
             /\ successful_pings a' = successful_pings a.
Proof.
  induction rs as [|r rs IH]; intros a tr H.
  - exists a. simpl. rewrite app_nil_r. auto.
  - inversion H as [|? ? Hr Hrs]; subst.
    cbn [ping_loop]. rewrite Hr. unfold bind, emit.
    edestruct IH as (a' & Hrun & Hs); [exact Hrs|].
    exists a'. rewrite Hrun, <- app_assoc. split; [reflexivity | exact Hs].
Qed.

(** C9: when no probe succeeds, [ping_host] takes the "No successful pings"
    branch and returns [False]: it prints one failure line per packet and
    never reaches the statistics branch, so no average is divided out. *)
Theorem ping_host_no_success rtt_text target count timeout verbose rs :
  Forall (fun r => success r = false) rs ->
  run (ping_host rtt_text target count timeout verbose (inr rs))
  = (Ret false,
     (Info ("Pinging " ++ target ++ " with " ++ str_of_Z count ++ " packets, timeout "
            ++ str_of_Z timeout ++ "s...")
      :: map failure_line rs
      ++ [Error (nl ++ "No successful pings to " ++ target ++ ".")])%list).
Proof.
  intros Hall. unfold run, ping_host, try_except, bind, emit, ret.
  destruct (ping_loop_failures rtt_text rs acc0 [Info ("Pinging " ++ target ++ " with "
              ++ str_of_Z count ++ " packets, timeout " ++ str_of_Z timeout ++ "s...")] Hall)
    as (a' & Hrun & Hs).
  cbn [app]. rewrite Hrun, Hs. reflexivity.
Qed.

Lemma ping_host_no_success_witness :
  Forall (fun r => success r = false) [no_reply; no_reply] /\
  run (ping_host (fun _ => "2000.00") "10.9.9.9" 2 2 false (inr [no_reply; no_reply]))
  = (Ret false,
     (Info ("Pinging " ++ "10.9.9.9" ++ " with " ++ str_of_Z 2 ++ " packets, timeout "
            ++ str_of_Z 2 ++ "s...")
      :: map failure_line [no_reply; no_reply]
      ++ [Error (nl ++ "No successful pings to " ++ "10.9.9.9" ++ ".")])%list).
Proof.
  assert (H : Forall (fun r => success r = false) [no_reply; no_reply])
    by (repeat constructor).
  split; [exact H|]. exact (ping_host_no_success _ _ _ _ _ _ H).
Defined.

(** C8: with three echo replies (10, 20, 30 ms) out of four packets,
    [ping_host] raises [AttributeError] on the first reply line (the
    pythonping [Message] object has no [split]), reports it through the
    [except] clause and returns [False]: no statistics are printed. *)
Theorem ping_host_replies_fail rtt_text :
  run (ping_host rtt_text "8.8.8.8" 4 2 false
         (inr [reply 10; reply 20; reply 30; no_reply]))
  = (Ret false,
     [Info "Pinging 8.8.8.8 with 4 packets, timeout 2s...";
      Error "Error pinging 8.8.8.8: 'Message' object has no attribute 'split'"]).
Proof. reflexivity. Qed.

End PingClaims.

(** ** Claims on [resolve_hostname] *)

Module DnsClaims.
Import Dns Scenarios.

(** C4: for a name with no AAAA record, queried for AAAA then A, the
    [NoAnswer] handler raises [NameError] at [print_warning]: no
    "No Answer" sentinel is appended, the exception reaches the caller and
    the A query is never issued. *)
Theorem resolve_no_answer_raises dec :
  run (resolve_hostname (env_example dec) "example.com" ["AAAA"; "A"])
  = (Raise (NameError "name 'print_warning' is not defined"),
     [Info "Performing DNS lookup for example.com, types: AAAA, A...";
      Query "example.com" "AAAA"]).
Proof. reflexivity. Qed.






End DnsClaims.

(* ------------------------------------------------------------------ *)
(** ** More properties of [_parse_ports] *)

Module PortExtra.
Import Ports PortSpec PortFacts.

Lemma range_from_in n : forall a k, In k (range_from n a) -> a <= k < a + Z.of_nat n.
Proof.
  induction n as [|n IH]; simpl; intros a k H; [contradiction|].
  destruct H as [<-|H]; [lia|]. apply IH in H. lia.
Qed.

Lemma parse_parts_in_range parts : forall ports l,
  Forall (fun x => 1 <= x <= 65535) ports -> parse_parts parts ports = inr l ->
  Forall (fun x => 1 <= x <= 65535) l.
Proof.
  induction parts as [|p rest IH]; intros ports l Hp H.
  - injection H as <-. exact Hp.
  - cbn [parse_parts] in H. destruct (strip p) as [|c r]; [exact (IH _ _ Hp H)|].
    destruct (split_once "-" (String c r)) as [[a b]|].
    + destruct (py_int a) as [x|], (py_int b) as [y|]; try discriminate.
      destruct (in_port_range x && in_port_range y && (x <=? y)) eqn:E; [|discriminate].
      refine (IH _ _ _ H).
      rewrite !andb_true_iff, !in_port_range_iff, Z.leb_le in E.
      apply Forall_app. split; [exact Hp|].
      apply Forall_forall. intros k Hk. apply range_from_in in Hk. lia.
    + destruct (py_int (String c r)) as [x|]; [|discriminate].
      destruct (in_port_range x) eqn:E; [|discriminate].
      refine (IH _ _ _ H). apply in_port_range_iff in E.
      apply Forall_app. split; [exact Hp | constructor; [exact E | constructor]].
Qed.

Lemma parse_ports_range port_str ps :
  parse_ports port_str = inr ps -> Forall (fun x => 1 <= x <= 65535) ps.
Proof.
  unfold parse_ports. intros H. destruct port_str as [[|c r]|].
  - injection H as <-. repeat constructor; lia.
  - destruct (parse_parts (PyStr.split "," (String c r)) []) as [m|[|z zs]] eqn:E;
      try discriminate.
    injection H as <-. apply Forall_forall. intros k Hk.
    apply (sorted_set_in (z :: zs)) in Hk.
    pose proof (parse_parts_in_range _ [] _ (Forall_nil _) E) as Hf.
    rewrite Forall_forall in Hf. exact (Hf k Hk).
  - injection H as <-. repeat constructor; lia.
Qed.

(** Every port [_parse_ports] returns, the default list included, lies in
    [1, 65535]. *)
Theorem parse_ports_in_range port_str ps :
  parse_ports port_str = inr ps -> Forall (fun x => 1 <= x <= 65535) ps.
Proof. apply parse_ports_range. Qed.

Lemma parse_ports_in_range_witness :
  parse_ports (Some "8080, 20-22") = inr [20; 21; 22; 8080] /\
  Forall (fun x => 1 <= x <= 65535) [20; 21; 22; 8080].
Proof.
  assert (H : parse_ports (Some "8080, 20-22") = inr [20; 21; 22; 8080]) by (vm_compute; reflexivity).
  split; [exact H | exact (parse_ports_in_range _ _ H)].
Defined.

Lemma sorted_lt_eq l1 : forall l2,
  Sorted Z.lt l1 -> Sorted Z.lt l2 -> (forall k, In k l1 <-> In k l2) -> l1 = l2.
Proof.
  assert (Ht : Relations_1.Transitive Z.lt) by (intros x y z; lia).
  induction l1 as [|x r1 IH]; intros [|y r2] H1 H2 Hk.
  - reflexivity.
  - exfalso. apply (proj2 (Hk y)). left; reflexivity.
  - exfalso. apply (proj1 (Hk x)). left; reflexivity.
  - apply Sorted_StronglySorted in H1; [|exact Ht].
    apply Sorted_StronglySorted in H2; [|exact Ht].
    apply StronglySorted_inv in H1 as [S1 F1]. apply StronglySorted_inv in H2 as [S2 F2].
    rewrite Forall_forall in F1, F2.
    assert (Exy : x = y).
    { destruct (proj1 (Hk x) (or_introl eq_refl)) as [->|Hx]; [reflexivity|].
      destruct (proj2 (Hk y) (or_introl eq_refl)) as [<-|Hy]; [reflexivity|].
      specialize (F1 _ Hy). specialize (F2 _ Hx). lia. }
    subst y. f_equal. apply IH; try (apply StronglySorted_Sorted; assumption).
    intros k. split; intros Hin.
    + destruct (proj1 (Hk k) (or_intror Hin)) as [<-|H]; [|exact H].
      specialize (F1 _ Hin). lia.
    + destruct (proj2 (Hk k) (or_intror Hin)) as [<-|H]; [|exact H].
      specialize (F2 _ Hin). lia.
Qed.

Lemma parse_render_spec segs :
  segs <> [] -> Forall seg_valid segs ->
  parse_ports (Some (render_spec segs)) = inr (sorted_set (List.concat (map seg_ports segs))).
Proof.
  intros Hne Hv.
  pose proof (render_spec_not_empty segs Hne Hv) as Hr.
  assert (Hc : List.concat (map seg_ports segs) <> []).
  { destruct segs as [|s segs]; [congruence|]. inversion Hv as [|? ? Hs _]; subst.
    cbn [map List.concat]. pose proof (seg_ports_not_nil s Hs).
    destruct (seg_ports s); [congruence | discriminate]. }
  unfold parse_ports. destruct (render_spec segs) as [|c r] eqn:E; [congruence|].
  rewrite <- E, split_render, parse_render by assumption. cbn [app].
  destruct (List.concat (map seg_ports segs)) as [|z zs]; [congruence | reflexivity].
Qed.

(** Two port specifications (non-empty lists of valid single ports and
    ranges) that denote the same set of ports give the same result: the
    order, the repetitions and the split into ranges do not matter. *)
Theorem parse_ports_set_semantics segs1 segs2 :
  segs1 <> [] -> Forall seg_valid segs1 -> segs2 <> [] -> Forall seg_valid segs2 ->
  (forall k, In k (List.concat (map seg_ports segs1)) <-> In k (List.concat (map seg_ports segs2))) ->
  parse_ports (Some (render_spec segs1)) = parse_ports (Some (render_spec segs2)).
Proof.
  intros Hn1 Hv1 Hn2 Hv2 Hk.
  rewrite !parse_render_spec by assumption. f_equal.
  apply sorted_lt_eq; try apply sorted_set_sorted.
  intros k. rewrite !sorted_set_in. apply Hk.
Qed.

Lemma parse_ports_set_semantics_witness :
  parse_ports (Some (render_spec [Range 80 81; Single 22]))
  = parse_ports (Some (render_spec [Single 81; Single 22; Single 80; Single 81])) /\
  render_spec [Range 80 81; Single 22] = "80-81,22" /\
  render_spec [Single 81; Single 22; Single 80; Single 81] = "81,22,80,81".
Proof.
  split; [|split; vm_compute; reflexivity].
  apply parse_ports_set_semantics.
  - discriminate.
  - repeat constructor; simpl; lia.
  - discriminate.
  - repeat constructor; simpl; lia.
  - intros k. vm_compute. tauto.
Defined.

End PortExtra.

(* ------------------------------------------------------------------ *)
(** ** More properties of [scan_ports] and the [scan] command *)

Module ScanExtra.
Import Scan Scenarios ScanClaims.

Lemma filter_partition_length {A} (f : A -> bool) l :
  (List.length (filter f l) + List.length (filter (fun x => negb (f x)) l))%nat = List.length l.
Proof. induction l as [|x l IH]; simpl; [reflexivity|]. destruct (f x); simpl; lia. Qed.

Lemma check_port_ok p : 0 <= p <= 65535 -> check_port p = None.
Proof.
  intros Hp. unfold check_port.
  replace (p <? - Z.pow 2 31) with false by (symmetry; apply Z.ltb_ge; lia).
  replace (Z.pow 2 31 - 1 <? p) with false by (symmetry; apply Z.ltb_ge; lia).
  replace (p <? 0) with false by (symmetry; apply Z.ltb_ge; lia).
  replace (65535 <? p) with false by (symmetry; apply Z.ltb_ge; lia).
  reflexivity.
Qed.

Lemma parse_ports_checked ports_str ports :
  Ports.parse_ports ports_str = inr ports -> Forall (fun p => check_port p = None) ports.
Proof.
  intros H. apply PortExtra.parse_ports_range in H. revert H. apply Forall_impl.
  intros p Hp. apply check_port_ok. lia.
Qed.

(** With at least one open port, [scan_ports] on a resolvable target
    probes every port once in the given order, lists the open ports with
    their service name ("unknown" when the lookup fails), prints a summary
    whose open and closed/filtered counts add up to the number of ports,
    and returns the open ports.  The timeout and the ports are ones the
    socket accepts, and the printed names hold no rich markup. *)
Theorem scan_ports_some_open nw target ports timeout ip :
  gethostbyname nw target = Resolved ip ->
  settimeout timeout = None -> Forall (fun p => check_port p = None) ports ->
  markup_plain target = true -> markup_plain ip = true ->
  (forall p name, getservbyport nw p = Service name -> markup_plain name = true) ->
  filter (fun p => connect_ex nw timeout ip p =? 0) ports <> [] ->
  let opens := filter (fun p => connect_ex nw timeout ip p =? 0) ports in
  let closed := filter (fun p => negb (connect_ex nw timeout ip p =? 0)) ports in
  run (scan_ports nw target ports timeout)
  = (Ret (map (fun p => VTuple [VInt p; VStr "open"]) opens),
     [Info ("Scanning " ++ target ++ " (" ++ ip ++ ") for "
            ++ str_of_Z (Z.of_nat (List.length ports)) ++ " port(s)...")]
     ++ flat_map (fun p => [Connect ip p; Close p]) ports
     ++ [Success (nl ++ "Open ports on " ++ target ++ " (" ++ ip ++ "):")]
     ++ map (fun p => open_line (p, "open",
                                 match getservbyport nw p with
                                 | Service name => name
                                 | ServiceOSError | ServiceFailed => "unknown"
                                 end)) opens
     ++ [Info ("Summary: " ++ str_of_Z (Z.of_nat (List.length opens)) ++ " open, "
               ++ str_of_Z (Z.of_nat (List.length closed)) ++ " closed/filtered.")])%list
  /\ (List.length opens + List.length closed)%nat = List.length ports.
Proof.
  intros Hres Ht Hp _ _ _ Hne opens closed. split; [|apply filter_partition_length].
  unfold run, scan_ports. rewrite Hres. unfold bind, emit.
  rewrite scan_loop_run by auto. cbn [app]. subst opens closed.
  destruct (filter (fun p => connect_ex nw timeout ip p =? 0) ports) as [|p ps] eqn:E;
    [congruence|].
  cbn [map]. rewrite emit_all_run. cbn [List.length].
  unfold ret. rewrite !map_map, length_map. rewrite <- !app_assoc. reflexivity.
Qed.

Lemma nw_http_services_plain p name :
  getservbyport nw_http p = Service name -> markup_plain name = true.
Proof. cbn. destruct (p =? 80); intros H; [injection H as <-; reflexivity | discriminate]. Qed.

Lemma scan_ports_some_open_witness :
  gethostbyname nw_http "host" = Resolved "10.0.0.1" /\
  filter (fun p => connect_ex nw_http 1 "10.0.0.1" p =? 0) [22; 80] <> [] /\
  run (scan_ports nw_http "host" [22; 80] 1)
  = (Ret [VTuple [VInt 80; VStr "open"]],
     [Info ("Scanning host (10.0.0.1) for " ++ str_of_Z 2 ++ " port(s)...");
      Connect "10.0.0.1" 22; Close 22; Connect "10.0.0.1" 80; Close 80;
      Success (nl ++ "Open ports on host (10.0.0.1):");
      open_line (80, "open", "http");
      Info ("Summary: " ++ str_of_Z 1 ++ " open, " ++ str_of_Z 1 ++ " closed/filtered.")]).
Proof.
  assert (H1 : gethostbyname nw_http "host" = Resolved "10.0.0.1") by reflexivity.
  assert (H2 : filter (fun p => connect_ex nw_http 1 "10.0.0.1" p =? 0) [22; 80] <> [])
    by discriminate.
  assert (H3 : settimeout 1 = None) by reflexivity.
  assert (H4 : Forall (fun p => check_port p = None) [22; 80]) by (repeat constructor).
  assert (H5 : markup_plain "host" = true) by reflexivity.
  assert (H6 : markup_plain "10.0.0.1" = true) by reflexivity.
  split; [exact H1|]. split; [exact H2|].
  exact (proj1 (scan_ports_some_open nw_http "host" [22; 80] 1 "10.0.0.1" H1 H3 H4 H5 H6
                  nw_http_services_plain H2)).
Defined.

(** With no open port (an empty port list included), [scan_ports] on a
    resolvable target probes every port and then raises [NameError] at the
    unimported [print_warning]: no summary is printed.  The timeout and
    the ports are ones the socket accepts, and the printed names hold no
    rich markup. *)
Theorem scan_ports_none_open_raises nw target ports timeout ip :
  gethostbyname nw target = Resolved ip ->
  (ports = [] \/ settimeout timeout = None) -> Forall (fun p => check_port p = None) ports ->
  markup_plain target = true -> markup_plain ip = true ->
  filter (fun p => connect_ex nw timeout ip p =? 0) ports = [] ->
  run (scan_ports nw target ports timeout)
  = (Raise (NameError "name 'print_warning' is not defined"),
     Info ("Scanning " ++ target ++ " (" ++ ip ++ ") for "
           ++ str_of_Z (Z.of_nat (List.length ports)) ++ " port(s)...")
     :: flat_map (fun p => [Connect ip p; Close p]) ports).
Proof.
  intros Hres Ht Hp _ _ Hnone. unfold run, scan_ports. rewrite Hres. unfold bind, emit.
  rewrite scan_loop_run, Hnone by auto. reflexivity.
Qed.

Lemma scan_ports_none_open_raises_witness :
  gethostbyname nw_http "host" = Resolved "10.0.0.1" /\
  filter (fun p => connect_ex nw_http 1 "10.0.0.1" p =? 0) [22; 443] = [] /\
  run (scan_ports nw_http "host" [22; 443] 1)
  = (Raise (NameError "name 'print_warning' is not defined"),
     [Info ("Scanning host (10.0.0.1) for " ++ str_of_Z 2 ++ " port(s)...");
      Connect "10.0.0.1" 22; Close 22; Connect "10.0.0.1" 443; Close 443]).
Proof.
  assert (H1 : gethostbyname nw_http "host" = Resolved "10.0.0.1") by reflexivity.
  assert (H2 : filter (fun p => connect_ex nw_http 1 "10.0.0.1" p =? 0) [22; 443] = [])
    by reflexivity.
  assert (H3 : [22; 443] = [] \/ settimeout 1 = None) by (right; reflexivity).
  assert (H4 : Forall (fun p => check_port p = None) [22; 443]) by (repeat constructor).
  assert (H5 : markup_plain "host" = true) by reflexivity.
  assert (H6 : markup_plain "10.0.0.1" = true) by reflexivity.
  split; [exact H1|]. split; [exact H2|].
  exact (scan_ports_none_open_raises nw_http "host" [22; 443] 1 "10.0.0.1" H1 H3 H4 H5 H6 H2).
Defined.

Lemma filter_nil_iff {A} (f : A -> bool) l :
  filter f l = [] <-> forall x, In x l -> f x = false.
Proof.
  induction l as [|x l IH]; simpl; [tauto|].
  destruct (f x) eqn:E; split.
  - discriminate.
  - intros H. rewrite (H x (or_introl eq_refl)) in E. discriminate.
  - intros H y [<-|Hy]; [exact E | apply IH; assumption].
  - intros H. apply IH. intros y Hy. apply H. right; exact Hy.
Qed.

(** The [scan] command exits with status 0 exactly when the target passes
    [_validate_host], the port specification parses, and the target either
    does not resolve, or resolves, takes a timeout the socket accepts (not
    negative, not too large) and has at least one port that accepts a
    connection.  The target and the texts printed about it hold no rich
    markup. *)
Theorem scan_cmd_status_zero is_ip nw target ports_str timeout :
  markup_plain target = true ->
  (forall ip, gethostbyname nw target = Resolved ip -> markup_plain ip = true) ->
  (forall m, gethostbyname nw target = ResolveFailed m -> markup_plain m = true) ->
  (forall p name, getservbyport nw p = Service name -> markup_plain name = true) ->
  fst (scan_cmd is_ip nw target ports_str timeout) = 0 <->
  validate_host is_ip target = true /\
  exists ports, Ports.parse_ports ports_str = inr ports /\
    match gethostbyname nw target with
    | Resolved ip =>
        settimeout timeout = None /\ exists p, In p ports /\ connect_ex nw timeout ip p = 0
    | Gaierror | ResolveFailed _ => True
    end.
Proof.
  intros _ _ _ _. unfold scan_cmd. destruct (validate_host is_ip target); cbn [negb].
  2:{ split; [discriminate | intros [H _]; discriminate]. }
  destruct (Ports.parse_ports ports_str) as [msg|ports] eqn:Hparse.
  { split; [discriminate | intros [_ (ps & H & _)]; discriminate]. }
  pose proof (parse_ports_checked _ _ Hparse) as Hchk.
  unfold run, scan_ports.
  destruct (gethostbyname nw target) as [ip| |m] eqn:Eg.
  - unfold bind, emit.
    destruct (settimeout timeout) eqn:Ht.
    + (* a rejected timeout raises at the first port; no port: no open port *)
      destruct ports as [|p0 ps0].
      * cbn. split; [discriminate|]. intros [_ (ps & Hps & Hn & _)]. discriminate Hn.
      * cbn [scan_loop]. rewrite Ht. cbn. split; [discriminate|].
        intros [_ (ps & Hps & Hn & _)]. discriminate Hn.
    + rewrite scan_loop_run by auto. cbn [app].
      destruct (filter (fun p => connect_ex nw timeout ip p =? 0) ports) as [|q qs] eqn:E.
      * cbn. split; [discriminate|].
        intros [_ (ps & Hps & _ & p & Hp & Hc)]. injection Hps as <-.
        apply filter_nil_iff with (x := p) in E; [|exact Hp].
        rewrite Hc in E. discriminate.
      * cbn [map]. rewrite emit_all_run. cbn. split; [intros _|reflexivity].
        split; [reflexivity|]. exists ports. split; [reflexivity|]. split; [reflexivity|].
        assert (Hq : In q (filter (fun p => connect_ex nw timeout ip p =? 0) ports))
          by (rewrite E; left; reflexivity).
        apply filter_In in Hq as [Hq Hc]. exists q. split; [exact Hq | apply Z.eqb_eq, Hc].
  - cbn. split; [intros _; split; [reflexivity | exists ports; auto] | reflexivity].
  - cbn. split; [intros _; split; [reflexivity | exists ports; auto] | reflexivity].
Qed.

Lemma scan_cmd_status_zero_witness :
  markup_plain "host" = true /\
  fst (scan_cmd (fun _ => false) nw_http "host" (Some "22,80") 1) = 0 /\
  fst (scan_cmd (fun _ => false) nw_http "host" (Some "22,80") (-1)) <> 0.
Proof.
  assert (H1 : markup_plain "host" = true) by reflexivity.
  assert (H2 : forall ip, gethostbyname nw_http "host" = Resolved ip -> markup_plain ip = true)
    by (intros ip H; injection H as <-; reflexivity).
  assert (H3 : forall m, gethostbyname nw_http "host" = ResolveFailed m -> markup_plain m = true)
    by (intros m H; discriminate H).
  split; [exact H1|]. split.
  - apply (scan_cmd_status_zero _ _ _ _ _ H1 H2 H3 nw_http_services_plain).
    split; [reflexivity|]. exists [22; 80]. split; [vm_compute; reflexivity|].
    split; [reflexivity|]. exists 80. split; [right; left; reflexivity | reflexivity].
  - intros H. apply (scan_cmd_status_zero _ _ _ _ _ H1 H2 H3 nw_http_services_plain) in H.
    destruct H as [_ (ps & _ & Ht & _)]. discriminate Ht.
Defined.

End ScanExtra.

(* ------------------------------------------------------------------ *)
(** ** More properties of [ping_host] *)

Module PingExtra.
Import Ping Scenarios PingClaims.

(** The loop only completes when no response was successful. *)
Lemma ping_loop_ret rtt_text rs : forall a tr a' tr',
  ping_loop rtt_text rs a tr = (Ret a', tr') -> successful_pings a' = successful_pings a.
Proof.
  induction rs as [|r rs IH]; intros a tr a' tr' H.
  - injection H as <- _. reflexivity.
  - cbn [ping_loop] in H. destruct (success r) eqn:Es.
    + unfold success, error_message in Es. unfold bind, reply_line, bind, message_split in H.
      destruct (resp_message r); discriminate H.
    + unfold bind, emit in H. apply IH in H. exact H.
Qed.

(** [ping_host] never returns [True]: a successful reply makes the reply
    line raise [AttributeError], caught by the [except] clause, which
    returns [False], and a run without successful reply takes the "No
    successful pings" branch.  (Where printing raises [MarkupError] the
    function raises instead of returning.) *)
Theorem ping_host_never_true rtt_text target count timeout verbose pinged :
  fst (run (ping_host rtt_text target count timeout verbose pinged)) <> Ret true.
Proof.
  unfold run, ping_host, bind, emit, try_except.
  destruct pinged as [e|rs]; [discriminate|]. cbn [ret].
  destruct (ping_loop rtt_text rs acc0 _) as [[a'|e] tr'] eqn:E; [|discriminate].
  apply ping_loop_ret in E. cbn in E. rewrite E. discriminate.
Qed.

(** When the first successful response follows the failed ones [fails],
    [ping_host] prints one failure line per failed response and then
    "Error pinging ...: 'Message' object has no attribute 'split'"; the
    remaining responses are not looked at. *)
Theorem ping_host_first_success rtt_text target count timeout verbose fails r rest :
  Forall (fun f => success f = false) fails -> success r = true ->
  run (ping_host rtt_text target count timeout verbose (inr (fails ++ r :: rest)%list))
  = (Ret false,
     (Info ("Pinging " ++ target ++ " with " ++ str_of_Z count ++ " packets, timeout "
            ++ str_of_Z timeout ++ "s...")
      :: map failure_line fails
      ++ [Error ("Error pinging " ++ target ++ ": 'Message' object has no attribute 'split'")])%list).
Proof.
  intros Hf Hs.
  assert (Hloop : forall a tr, ping_loop rtt_text (fails ++ r :: rest)%list a tr
            = (Raise (AttributeError "'Message' object has no attribute 'split'"),
               (tr ++ map failure_line fails)%list)).
  { induction fails as [|f fs IH]; intros a tr.
    - cbn [app ping_loop map]. rewrite Hs, app_nil_r.
      unfold success, error_message in Hs.
      unfold bind, reply_line, bind, message_split.
      destruct (resp_message r); [reflexivity | discriminate].
    - inversion Hf as [|? ? Hf1 Hfs]; subst.
      cbn [app ping_loop map]. rewrite Hf1. unfold bind, emit.
      rewrite (IH Hfs), <- app_assoc. reflexivity. }
  unfold run, ping_host, try_except, bind, emit. cbn [ret app].
  rewrite Hloop. reflexivity.
Qed.

Lemma ping_host_first_success_witness :
  Forall (fun f => success f = false) [no_reply] /\ success (reply 12) = true /\
  run (ping_host (fun _ => "12.00") "8.8.8.8" 3 2 false (inr ([no_reply] ++ reply 12 :: [no_reply])%list))
  = (Ret false,
     (Info ("Pinging " ++ "8.8.8.8" ++ " with " ++ str_of_Z 3 ++ " packets, timeout "
            ++ str_of_Z 2 ++ "s...")
      :: map failure_line [no_reply]
      ++ [Error ("Error pinging " ++ "8.8.8.8" ++ ": 'Message' object has no attribute 'split'")])%list).
Proof.
  assert (H1 : Forall (fun f => success f = false) [no_reply]) by (repeat constructor).
  assert (H2 : success (reply 12) = true) by reflexivity.
  split; [exact H1|]. split; [exact H2|].
  exact (ping_host_first_success _ _ _ _ _ _ _ _ H1 H2).
Defined.

End PingExtra.

(* ------------------------------------------------------------------ *)
(** ** More properties of [resolve_hostname] *)

Module DnsExtra.
Import Dns DnsCmd Scenarios.

(** *** computations that only append to the console trace *)

Definition appends {A} (m : M A) : Prop :=
  forall tr, m tr = (fst (m []), (tr ++ snd (m []))%list).

Lemma ret_appends {A} (a : A) : appends (ret a).
Proof. intros tr. unfold ret. simpl. rewrite app_nil_r. reflexivity. Qed.

Lemma raise_appends {A} e : appends (@raise A e).
Proof. intros tr. unfold raise. simpl. rewrite app_nil_r. reflexivity. Qed.

Lemma emit_appends e : appends (emit e).
Proof. intros tr. reflexivity. Qed.

Lemma bind_appends {A B} (m : M A) (k : A -> M B) :
  appends m -> (forall a, appends (k a)) -> appends (bind m k).
Proof.
  intros Hm Hk tr. unfold bind. rewrite (Hm tr).
  destruct (m []) as [[a|e] t]; cbn [fst snd].
  - rewrite (Hk a (tr ++ t)%list), (Hk a t). cbn [fst snd]. rewrite app_assoc. reflexivity.
  - reflexivity.
Qed.

Lemma append_appends k v d : appends (append k v d).
Proof.
  unfold append. destruct (dict_append k v d); [apply ret_appends | apply raise_appends].
Qed.

Lemma handle_appends h t e d : appends (handle h t e d).
Proof.
  unfold handle.
  destruct e; first [apply raise_appends
                    | apply bind_appends; intros; first [apply emit_appends | apply append_appends]].
Qed.

Lemma resolve_loop_appends env h types : forall d, appends (resolve_loop env h types d).
Proof.
  induction types as [|t ts IH]; intros d; cbn [resolve_loop]; [apply ret_appends|].
  destruct (negb _).
  - apply bind_appends; [apply emit_appends | intros; apply IH].
  - apply bind_appends; [apply emit_appends|]. intros _.
    destruct (match resolve env h (upper t) with
              | inl e => (d, Some e)
              | inr answers => append_answers env t (upper t) answers d
              end) as [d1 [e|]].
    + apply bind_appends; [apply handle_appends | intros; apply IH].
    + apply bind_appends; [apply ret_appends | intros; apply IH].
Qed.

Lemma resolve_hostname_appends env h types : appends (resolve_hostname env h types).
Proof.
  unfold resolve_hostname. apply bind_appends; [apply emit_appends|]. intros _.
  apply bind_appends; [apply resolve_loop_appends|]. intros d.
  apply bind_appends; [|intros; apply ret_appends].
  destruct (table_rows d); [apply raise_appends | apply emit_appends].
Qed.

(** *** the keys of the result *)

Lemma existsb_key_false k (d : dict) :
  existsb (fun '(k', _) => String.eqb k k') d = false <-> ~ In k (map fst d).
Proof.
  induction d as [|[k' v] d IH]; simpl; [tauto|].
  rewrite orb_false_iff, IH, String.eqb_neq. intuition congruence.
Qed.

Lemma dict_init_gen keys : forall d : dict,
  NoDup (map fst d) ->
  NoDup (map fst (fold_left (fun d k => if existsb (fun '(k', _) => String.eqb k k') d then d
                                       else (d ++ [(k, [])])%list) keys d)) /\
  (forall k, In k (map fst (fold_left (fun d k => if existsb (fun '(k', _) => String.eqb k k') d
                                                  then d else (d ++ [(k, [])])%list) keys d))
             <-> In k (map fst d) \/ In k keys).
Proof.
  induction keys as [|k ks IH]; intros d Hd; cbn [fold_left]; [split; [exact Hd | simpl; tauto]|].
  destruct (existsb (fun '(k', _) => String.eqb k k') d) eqn:E.
  - destruct (IH d Hd) as [H1 H2]. split; [exact H1|]. intros x. rewrite H2. simpl.
    split; [tauto|]. intros [H|[<-|H]]; try tauto. left.
    destruct (in_dec string_dec k (map fst d)) as [Hi|Hi]; [exact Hi|].
    apply existsb_key_false in Hi. congruence.
  - apply existsb_key_false in E.
    assert (Hd' : NoDup (map fst (d ++ [(k, [])])%list)).
    { rewrite map_app. simpl. apply NoDup_app; auto using NoDup_cons, NoDup_nil.
      intros x Hx [<-|[]]. contradiction. }
    destruct (IH _ Hd') as [H1 H2]. split; [exact H1|]. intros x. rewrite H2.
    rewrite map_app, in_app_iff. simpl. tauto.
Qed.

Lemma dict_append_keys k v d d' : dict_append k v d = Some d' -> map fst d' = map fst d.
Proof.
  revert d'. induction d as [|[k' vs] d IH]; intros d' H; simpl in H; [discriminate|].
  destruct (String.eqb k k'); [injection H as <-; reflexivity|].
  destruct (dict_append k v d) as [d1|] eqn:E; [|discriminate].
  injection H as <-. simpl. rewrite (IH d1 eq_refl). reflexivity.
Qed.

Lemma append_answers_keys env k rt answers : forall d,
  map fst (fst (append_answers env k rt answers d)) = map fst d.
Proof.
  induction answers as [|rd rest IH]; intros d; simpl; [reflexivity|].
  destruct (format_answer env rt rd); [reflexivity|].
  destruct (dict_append k s d) as [d'|] eqn:E; [|reflexivity].
  rewrite IH. apply (dict_append_keys _ _ _ _ E).
Qed.

Lemma handle_keys h t e d tr d' tr' :
  handle h t e d tr = (Ret d', tr') -> map fst d' = map fst d.
Proof.
  unfold handle, append, bind, emit, print_warning_unbound, raise.
  destruct e; try discriminate;
    destruct (dict_append t _ d) as [d1|] eqn:E; try discriminate;
    intros H; injection H as <- _; apply (dict_append_keys _ _ _ _ E).
Qed.

Lemma resolve_loop_keys env h types : forall d tr d' tr',
  resolve_loop env h types d tr = (Ret d', tr') -> map fst d' = map fst d.
Proof.
  induction types as [|t ts IH]; intros d tr d' tr' H; cbn [resolve_loop] in H.
  - injection H as <- _. reflexivity.
  - destruct (negb _); unfold bind, emit in H; [exact (IH _ _ _ _ H)|].
    destruct (match resolve env h (upper t) with
              | inl e => (d, Some e)
              | inr answers => append_answers env t (upper t) answers d
              end) as [d1 err] eqn:Ed.
    assert (Hk1 : map fst d1 = map fst d).
    { destruct (resolve env h (upper t)).
      - injection Ed as <- _. reflexivity.
      - pose proof (append_answers_keys env t (upper t) l d) as Hk. rewrite Ed in Hk. exact Hk. }
    destruct err as [e|].
    + destruct (handle h t e d1 _) as [[d2|e2] tr2] eqn:Eh; [|discriminate].
      apply handle_keys in Eh. rewrite (IH _ _ _ _ H), Eh, Hk1. reflexivity.
    + unfold ret in H. rewrite (IH _ _ _ _ H), Hk1. reflexivity.
Qed.

(** When [resolve_hostname] returns, its dict has exactly one key per
    distinct requested record type, spelled as requested, and no other. *)
Theorem resolve_hostname_keys env h types d :
  fst (run (resolve_hostname env h types)) = Ret d ->
  NoDup (map fst d) /\ (forall t, In (t : string) (map fst d) <-> In t types).
Proof.
  unfold run, resolve_hostname, bind, emit.
  destruct (resolve_loop env h types (dict_init types) _) as [[d1|e] tr1] eqn:E;
    [|discriminate].
  apply resolve_loop_keys in E.
  destruct (dict_init_gen types [] (NoDup_nil _)) as [Hn Hi].
  destruct (table_rows d1); [discriminate|]. cbn. intros H. injection H as <-.
  rewrite E. split; [exact Hn|]. intros t. unfold dict_init. rewrite Hi. simpl. tauto.
Qed.

Lemma resolve_hostname_keys_witness :
  fst (run (resolve_hostname (env_example (fun s => inr s)) "example.com" ["A"; "mx"; "A"]))
  = Ret [("A", ["93.184.215.14"; "93.184.215.14"]);
         ("mx", ["Preference: 10, Exchange: mail.example.com"])] /\
  NoDup (map fst [("A", ["93.184.215.14"; "93.184.215.14"]);
                  ("mx", ["Preference: 10, Exchange: mail.example.com"])]) /\
  (forall t, In (t : string) (map fst [("A", ["93.184.215.14"; "93.184.215.14"]);
                                       ("mx", ["Preference: 10, Exchange: mail.example.com"])])
             <-> In t ["A"; "mx"; "A"]).
Proof.
  assert (H : fst (run (resolve_hostname (env_example (fun s => inr s)) "example.com"
                          ["A"; "mx"; "A"]))
              = Ret [("A", ["93.184.215.14"; "93.184.215.14"]);
                     ("mx", ["Preference: 10, Exchange: mail.example.com"])])
    by (vm_compute; reflexivity).
  split; [exact H|]. exact (resolve_hostname_keys _ _ _ _ H).
Defined.

(** *** dicts built from a list of distinct keys *)

Definition mk (ks : list string) (g : string -> list string) : dict :=
  map (fun k => (k, g k)) ks.

Lemma dict_init_nodup types : forall d : dict,
  NoDup types -> (forall k, In k types -> ~ In k (map fst d)) ->
  fold_left (fun d k => if existsb (fun '(k', _) => String.eqb k k') d then d
                        else (d ++ [(k, [])])%list) types d
  = (d ++ map (fun k => (k, [])) types)%list.
Proof.
  induction types as [|k ks IH]; intros d Hn Hd; cbn [fold_left map].
  - rewrite app_nil_r. reflexivity.
  - inversion Hn as [|? ? Hk Hks]; subst.
    assert (E : existsb (fun '(k', _) => String.eqb k k') d = false)
      by (apply existsb_key_false, Hd; left; reflexivity).
    rewrite E, IH, <- app_assoc; [reflexivity | exact Hks|].
    intros x Hx. rewrite map_app, in_app_iff. simpl. intros [H|[<-|[]]].
    + exact (Hd x (or_intror Hx) H).
    + contradiction.
Qed.

Lemma dict_init_mk types : NoDup types -> dict_init types = mk types (fun _ => []).
Proof.
  intros Hn. unfold dict_init. rewrite dict_init_nodup; [reflexivity | exact Hn |].
  intros k _ [].
Qed.

Lemma dict_append_mk ks g t v :
  NoDup ks -> In t ks ->
  dict_append t v (mk ks g)
  = Some (mk ks (fun k => if String.eqb k t then (g k ++ [v])%list else g k)).
Proof.
  induction ks as [|k ks IH]; intros Hn Ht; [destruct Ht|].
  inversion Hn as [|? ? Hk Hks]; subst. cbn [mk map dict_append].
  destruct (String.eqb_spec t k) as [<-|Hne].
  - rewrite String.eqb_refl. f_equal. f_equal. apply map_ext_in. intros x Hx.
    destruct (String.eqb_spec x t) as [->|]; [contradiction | reflexivity].
  - destruct Ht as [->|Ht]; [congruence|]. unfold mk in IH. rewrite (IH Hks Ht). simpl.
    apply String.eqb_neq in Hne. rewrite String.eqb_sym, Hne. reflexivity.
Qed.

Lemma handle_mk h t e ks g tr :
  NoDup ks -> In t ks -> is_no_answer e = false ->
  exists tr', handle h t e (mk ks g) tr
              = (Ret (mk ks (fun k => if String.eqb k t then (g k ++ sentinel e)%list else g k)), tr').
Proof.
  intros Hn Ht He. unfold handle, bind, emit, append.
  destruct e; try discriminate; rewrite dict_append_mk by assumption; eexists; reflexivity.
Qed.

Definition outcome_text (env : dns_env) (h t : string) : list string :=
  if supported (upper t) then
    match resolve env h (upper t) with inl e => sentinel e | inr _ => [] end
  else [].

Lemma resolve_loop_failures env h ks types : forall g tr,
  NoDup ks -> (forall t, In t types -> In t ks) ->
  (forall t, In t types -> supported (upper t) = true ->
     exists e, resolve env h (upper t) = inl e /\ is_no_answer e = false) ->
  fst (resolve_loop env h types (mk ks g) tr)
  = Ret (mk ks (fun k => (g k ++ List.concat
                 (map (fun t => if String.eqb k t then outcome_text env h t else []) types))%list)).
Proof.
  induction types as [|t ts IH]; intros g tr Hn Hks Hf.
  - cbn. unfold mk. f_equal. apply map_ext. intros k. rewrite app_nil_r. reflexivity.
  - cbn [resolve_loop].
    assert (Hts : forall x, In x ts -> In x ks) by (intros x Hx; apply Hks; right; exact Hx).
    assert (Hfs : forall x, In x ts -> supported (upper x) = true ->
               exists e, resolve env h (upper x) = inl e /\ is_no_answer e = false)
      by (intros x Hx; apply Hf; right; exact Hx).
    fold (supported (upper t)).
    destruct (supported (upper t)) eqn:Es; cbn [negb]; unfold bind, emit.
    + destruct (Hf t (or_introl eq_refl) Es) as (e & Hr & He). rewrite Hr.
      destruct (handle_mk h t e ks g (tr ++ [Query h (upper t)])%list Hn
                  (Hks t (or_introl eq_refl)) He) as [tr' Hh].
      assert (Ho : outcome_text env h t = sentinel e)
        by (unfold outcome_text; rewrite Es, Hr; reflexivity).
      rewrite Hh, IH by assumption. f_equal. unfold mk. apply map_ext. intros k.
      cbn [map List.concat]. destruct (String.eqb k t); [rewrite Ho, app_assoc|]; reflexivity.
    + assert (Ho : outcome_text env h t = []) by (unfold outcome_text; rewrite Es; reflexivity).
      rewrite IH by assumption. f_equal. unfold mk. apply map_ext. intros k.
      cbn [map List.concat]. destruct (String.eqb k t); rewrite ?Ho; reflexivity.
Qed.

Lemma concat_select (f : string -> list string) types k :
  NoDup types -> In k types ->
  List.concat (map (fun t => if String.eqb k t then f t else []) types) = f k.
Proof.
  induction types as [|t ts IH]; intros Hn Hk; [destruct Hk|].
  inversion Hn as [|? ? Ht Hts]; subst. cbn [map List.concat].
  destruct (String.eqb_spec k t) as [<-|Hne].
  - assert (E : List.concat (map (fun t => if String.eqb k t then f t else []) ts) = []).
    { clear IH Hk Hn Hts. induction ts as [|x xs IHx]; [reflexivity|].
      cbn [map List.concat]. destruct (String.eqb_spec k x) as [->|]; simpl in Ht; [tauto|].
      apply IHx. tauto. }
    rewrite E, app_nil_r. reflexivity.
  - destruct Hk as [->|Hk]; [congruence|]. apply IH; assumption.
Qed.

(** For distinct requested types whose queries all fail with an error
    other than [NoAnswer], [resolve_hostname] returns normally and each
    supported type holds exactly one sentinel: "NXDOMAIN", "Timeout" or
    "Error: <message>"; an unsupported type holds nothing.  The hostname,
    the types and the error messages hold no rich markup. *)
Theorem resolve_hostname_sentinels env h types :
  NoDup types -> types <> [] ->
  markup_plain h = true -> Forall (fun t => markup_plain t = true) types ->
  (forall t, In t types -> supported (upper t) = true ->
     exists e, resolve env h (upper t) = inl e /\ is_no_answer e = false
               /\ markup_plain (exc_str e) = true) ->
  fst (run (resolve_hostname env h types))
  = Ret (map (fun t => (t, if supported (upper t) then
                              match resolve env h (upper t) with
                              | inl e => sentinel e | inr _ => []
                              end
                            else [])) types).
Proof.
  intros Hn Hne _ _ Hf'.
  assert (Hf : forall t, In t types -> supported (upper t) = true ->
                 exists e, resolve env h (upper t) = inl e /\ is_no_answer e = false)
    by (intros t Ht Hs; destruct (Hf' t Ht Hs) as (e & H1 & H2 & _); exists e; auto).
  clear Hf'. unfold run, resolve_hostname, bind, emit.
  rewrite dict_init_mk by exact Hn.
  pose proof (resolve_loop_failures env h types types (fun _ => [])
                [Info ("Performing DNS lookup for " ++ h ++ ", types: " ++ join ", " types ++ "...")]
                Hn (fun t H => H) Hf) as HL.
  assert (Hd : mk types (fun k => ([] ++ List.concat (map (fun t => if String.eqb k t
                                     then outcome_text env h t else []) types))%list)
               = mk types (outcome_text env h)).
  { unfold mk. apply map_ext_in. intros k Hk. cbn [app].
    rewrite concat_select by assumption. reflexivity. }
  cbv beta in HL. rewrite Hd in HL.
  destruct (resolve_loop env h types _ _) as [o tr] eqn:E. cbn [fst] in HL. subst o.
  assert (Ht : table_rows (mk types (outcome_text env h)) <> []).
  { destruct types as [|t ts]; [congruence|]. cbn [mk map table_rows flat_map].
    destruct (outcome_text env h t); discriminate. }
  destruct (table_rows (mk types (outcome_text env h))) eqn:Et; [congruence|].
  reflexivity.
Qed.

Lemma resolve_hostname_sentinels_witness :
  NoDup ["A"; "mx"; "PTR"; "TXT"] /\ ["A"; "mx"; "PTR"; "TXT"] <> [] /\
  (forall t, In t ["A"; "mx"; "PTR"; "TXT"] -> supported (upper t) = true ->
     exists e, resolve Scenarios2.env_failing "example.com" (upper t) = inl e
               /\ is_no_answer e = false /\ markup_plain (exc_str e) = true) /\
  fst (run (resolve_hostname Scenarios2.env_failing "example.com" ["A"; "mx"; "PTR"; "TXT"]))
  = Ret [("A", ["NXDOMAIN"]); ("mx", ["Timeout"]); ("PTR", []);
         ("TXT", ["Error: All nameservers failed to answer the query"])].
Proof.
  assert (H1 : NoDup ["A"; "mx"; "PTR"; "TXT"])
    by (repeat constructor; simpl; intuition discriminate).
  assert (H2 : ["A"; "mx"; "PTR"; "TXT"] <> []) by discriminate.
  assert (H3 : forall t, In t ["A"; "mx"; "PTR"; "TXT"] -> supported (upper t) = true ->
     exists e, resolve Scenarios2.env_failing "example.com" (upper t) = inl e
               /\ is_no_answer e = false /\ markup_plain (exc_str e) = true).
  { intros t Ht Hs. simpl in Ht.
    destruct Ht as [<-|[<-|[<-|[<-|[]]]]]; try discriminate Hs;
      (eexists; split; [reflexivity | split; reflexivity]). }
  assert (H4 : markup_plain "example.com" = true) by reflexivity.
  assert (H5 : Forall (fun t => markup_plain t = true) ["A"; "mx"; "PTR"; "TXT"])
    by (repeat constructor).
  split; [exact H1|]. split; [exact H2|]. split; [exact H3|].
  exact (resolve_hostname_sentinels _ _ _ H1 H2 H4 H5 H3).
Defined.

Lemma append_answers_a env k ips : forall vs rest,
  append_answers env k "A" (map RA ips) ((k, vs) :: rest) = (((k, vs ++ ips)%list :: rest), None).
Proof.
  induction ips as [|ip ips IH]; intros vs rest; cbn [map append_answers].
  - rewrite app_nil_r. reflexivity.
  - change (format_answer env "A" (RA ip)) with (@inr exc string ip).
    cbn [dict_append]. rewrite String.eqb_refl. rewrite IH, <- app_assoc. reflexivity.
Qed.

(** [results] is keyed by the record types as written: a type requested
    twice shares one entry, which receives its answers twice, and a
    lower-case type is queried in upper case but keyed as written. *)
Theorem resolve_hostname_repeated_type env h ips :
  resolve env h "A" = inr (map RA ips) ->
  fst (run (resolve_hostname env h ["A"; "A"])) = Ret [("A", (ips ++ ips)%list)] /\
  fst (run (resolve_hostname env h ["a"])) = Ret [("a", ips)].
Proof.
  intros Hr. unfold run, resolve_hostname, bind, emit. split.
  - change (dict_init ["A"; "A"]) with [("A", @nil string)].
    cbn [resolve_loop]. change (upper "A") with "A". cbn [existsb negb String.eqb SUPPORTED_RECORD_TYPES].
    rewrite Hr, !append_answers_a. unfold bind, emit, ret. cbn -[append_answers].
    rewrite append_answers_a. destruct ips; reflexivity.
  - change (dict_init ["a"]) with [("a", @nil string)].
    cbn [resolve_loop]. change (upper "a") with "A". cbn [existsb negb String.eqb SUPPORTED_RECORD_TYPES].
    rewrite Hr, append_answers_a. cbn [app]. destruct ips; reflexivity.
Qed.

Lemma resolve_hostname_repeated_type_witness :
  resolve Scenarios2.env_two_a "example.com" "A" = inr (map RA ["10.0.0.1"; "10.0.0.2"]) /\
  fst (run (resolve_hostname Scenarios2.env_two_a "example.com" ["A"; "A"]))
  = Ret [("A", (["10.0.0.1"; "10.0.0.2"] ++ ["10.0.0.1"; "10.0.0.2"])%list)] /\
  fst (run (resolve_hostname Scenarios2.env_two_a "example.com" ["a"]))
  = Ret [("a", ["10.0.0.1"; "10.0.0.2"])].
Proof.
  assert (H : resolve Scenarios2.env_two_a "example.com" "A" = inr (map RA ["10.0.0.1"; "10.0.0.2"]))
    by reflexivity.
  split; [exact H|]. exact (resolve_hostname_repeated_type _ _ _ H).
Defined.
End DnsExtra.

(* ------------------------------------------------------------------ *)
(** ** The [dns] command *)

Module DnsCmdExtra.
Import Scan Dns DnsCmd DnsExtra Scenarios.

Lemma filter_all_true {A} (f : A -> bool) l : Forall (fun x => f x = true) l -> filter f l = l.
Proof. induction 1 as [|x l Hx _ IH]; simpl; [reflexivity|]. rewrite Hx, IH. reflexivity. Qed.

Lemma filter_all_false {A} (f : A -> bool) l : Forall (fun x => f x = false) l -> filter f l = [].
Proof. induction 1 as [|x l Hx _ IH]; simpl; [reflexivity|]. rewrite Hx. exact IH. Qed.

Lemma upper_char_idem c : upper_char (upper_char c) = upper_char c.
Proof. destruct c as [[] [] [] [] [] [] [] []]; reflexivity. Qed.

Lemma upper_char_not_sharp_s c :
  (nat_of_ascii c =? 223)%nat = false -> (nat_of_ascii (upper_char c) =? 223)%nat = false.
Proof. destruct c as [[] [] [] [] [] [] [] []]; intros H; first [discriminate H | reflexivity]. Qed.

Lemma upper_idem s : upper (upper s) = upper s.
Proof.
  induction s as [|c s IH]; [reflexivity|]. cbn [upper].
  destruct (nat_of_ascii c =? 223)%nat eqn:E.
  - simpl. rewrite IH. reflexivity.
  - cbn [upper]. rewrite (upper_char_not_sharp_s c E), upper_char_idem, IH. reflexivity.
Qed.

(** When every requested record type is unsupported, the [dns] command
    reports them all in one error and exits with status 1 without any DNS
    query. *)
Theorem dns_cmd_all_unsupported is_ip gx env h types :
  validate_host is_ip h = true -> types <> [] ->
  Forall (fun t => supported (upper t) = false) types ->
  dns_cmd is_ip gx env h types
  = (1, [Error ("Unsupported DNS record type(s): " ++ join ", " types
                ++ ". Supported are: A, AAAA, MX, NS, CNAME, TXT, SOA, SRV")]).
Proof.
  intros Hv Hne Hall. unfold dns_cmd. rewrite Hv. cbn [negb].
  destruct types as [|t ts]; [congruence|]. cbv zeta.
  rewrite (filter_all_false (fun t => supported (upper t))) by exact Hall.
  rewrite (filter_all_true (fun t => negb (supported (upper t))))
    by (revert Hall; apply Forall_impl; intros x Hx; rewrite Hx; reflexivity).
  reflexivity.
Qed.

Lemma dns_cmd_all_unsupported_witness :
  validate_host (fun _ => false) "example.com" = true /\ ["PTR"; "any"] <> [] /\
  Forall (fun t => supported (upper t) = false) ["PTR"; "any"] /\
  dns_cmd (fun _ => false) (fun h => inr h) (env_example (fun s => inr s)) "example.com" ["PTR"; "any"]
  = (1, [Error ("Unsupported DNS record type(s): " ++ join ", " ["PTR"; "any"]
                ++ ". Supported are: A, AAAA, MX, NS, CNAME, TXT, SOA, SRV")]).
Proof.
  assert (H1 : validate_host (fun _ => false) "example.com" = true) by reflexivity.
  assert (H2 : ["PTR"; "any"] <> []) by discriminate.
  assert (H3 : Forall (fun t => supported (upper t) = false) ["PTR"; "any"])
    by (repeat constructor).
  split; [exact H1|]. split; [exact H2|]. split; [exact H3|].
  exact (dns_cmd_all_unsupported _ _ _ _ _ H1 H2 H3).
Defined.

(** Record types are case-insensitive: when every requested type is
    supported up to case, the [dns] command behaves exactly as with the
    upper-cased types. *)
Theorem dns_cmd_case_insensitive is_ip gx env h types :
  Forall (fun t => supported (upper t) = true) types ->
  dns_cmd is_ip gx env h types = dns_cmd is_ip gx env h (map upper types).
Proof.
  intros Hall. destruct types as [|t ts]; [reflexivity|].
  unfold dns_cmd. cbv zeta. cbn [map].
  assert (Hall' : Forall (fun t => supported (upper t) = true) (upper t :: map upper ts)).
  { change (upper t :: map upper ts) with (map upper (t :: ts)). apply Forall_map.
    revert Hall. apply Forall_impl. intros x Hx. rewrite upper_idem. exact Hx. }
  rewrite (filter_all_true _ (t :: ts) Hall), (filter_all_true _ _ Hall').
  rewrite (filter_all_false (fun t => negb (supported (upper t))) (t :: ts))
    by (revert Hall; apply Forall_impl; intros x Hx; rewrite Hx; reflexivity).
  rewrite (filter_all_false (fun t => negb (supported (upper t))) (upper t :: map upper ts))
    by (revert Hall'; apply Forall_impl; intros x Hx; rewrite Hx; reflexivity).
  cbn [map]. rewrite upper_idem, map_map.
  rewrite (map_ext (fun x => upper (upper x)) upper upper_idem). reflexivity.
Qed.

Lemma dns_cmd_case_insensitive_witness :
  Forall (fun t => supported (upper t) = true) ["mx"; "Txt"] /\
  dns_cmd (fun _ => false) (fun h => inr h) (env_example (fun s => inr s)) "example.com" ["mx"; "Txt"]
  = dns_cmd (fun _ => false) (fun h => inr h) (env_example (fun s => inr s)) "example.com"
            (map upper ["mx"; "Txt"]).
Proof.
  assert (H : Forall (fun t => supported (upper t) = true) ["mx"; "Txt"]) by (repeat constructor).
  split; [exact H | exact (dns_cmd_case_insensitive _ _ _ _ _ H)].
Defined.

(** The alias line: for supported types including A or AAAA, the [dns]
    command first prints "<host> is an alias for <cname>" when
    [socket.gethostbyname_ex] gives a non-empty canonical name that
    differs from the hostname ignoring case (nothing when it fails, gives
    an empty name or only the case differs), then runs [resolve_hostname]
    on the upper-cased types; it exits with 0 when that returns and 1 when
    it raises.  The hostname and the canonical name hold no rich markup. *)
Theorem dns_cmd_alias_then_resolve is_ip gx env h types :
  validate_host is_ip h = true -> types <> [] ->
  Forall (fun t => supported (upper t) = true) types ->
  In "A" (map upper types) \/ In "AAAA" (map upper types) ->
  markup_plain h = true -> (forall c, gx h = inr c -> markup_plain c = true) ->
  dns_cmd is_ip gx env h types
  = (match fst (run (resolve_hostname env h (map upper types))) with
     | Ret _ => 0 | Raise _ => 1 end,
     (match gx h with
      | inr c => if String.eqb c "" || String.eqb (lower c) (lower h) then []
                 else [alias_line h c]
      | inl _ => []
      end ++ snd (run (resolve_hostname env h (map upper types))))%list).
Proof.
  intros Hv Hne Hall Hin _ _. unfold dns_cmd. rewrite Hv. cbn [negb].
  destruct types as [|t ts]; [congruence|]. cbv zeta.
  rewrite (filter_all_true _ (t :: ts) Hall).
  rewrite (filter_all_false (fun t => negb (supported (upper t))) (t :: ts))
    by (revert Hall; apply Forall_impl; intros x Hx; rewrite Hx; reflexivity).
  assert (Hx : existsb (fun t0 => existsb (String.eqb t0) (map upper (t :: ts))) ["A"; "AAAA"] = true).
  { cbn [existsb]. apply orb_true_iff.
    destruct Hin as [H|H]; [left | right; apply orb_true_iff; left];
      apply existsb_exists; eexists; (split; [exact H | apply String.eqb_refl]). }
  change (map upper (t :: ts)) with (upper t :: map upper ts) in Hx |- *.
  rewrite Hx. cbn [app].
  rewrite (resolve_hostname_appends env h (upper t :: map upper ts)). unfold run.
  unfold get_canonical_name.
  destruct (gx h) as [e|c]; [cbn [app]; destruct (resolve_hostname _ _ _ []) as [[] ?]; reflexivity|].
  destruct (String.eqb_spec c h) as [->|Hch].
  - rewrite !String.eqb_refl, orb_true_r. cbn [negb app].
    destruct (resolve_hostname _ _ _ []) as [[] ?]; reflexivity.
  - cbn [negb]. destruct (String.eqb c ""), (String.eqb (lower c) (lower h)); cbn [negb andb orb app];
      destruct (resolve_hostname _ _ _ []) as [[] ?]; reflexivity.
Qed.

Lemma dns_cmd_alias_then_resolve_witness :
  validate_host (fun _ => false) "www.example.com" = true /\ ["a"] <> [] /\
  Forall (fun t => supported (upper t) = true) ["a"] /\
  (In "A" (map upper ["a"]) \/ In "AAAA" (map upper ["a"])) /\
  markup_plain "www.example.com" = true /\
  dns_cmd (fun _ => false) (fun _ => inr "example.com") (env_example (fun s => inr s))
          "www.example.com" ["a"]
  = (match fst (run (resolve_hostname (env_example (fun s => inr s)) "www.example.com" (map upper ["a"]))) with
     | Ret _ => 0 | Raise _ => 1 end,
     ([alias_line "www.example.com" "example.com"]
      ++ snd (run (resolve_hostname (env_example (fun s => inr s)) "www.example.com" (map upper ["a"]))))%list).
Proof.
  assert (H1 : validate_host (fun _ => false) "www.example.com" = true) by reflexivity.
  assert (H2 : ["a"] <> []) by discriminate.
  assert (H3 : Forall (fun t => supported (upper t) = true) ["a"]) by (repeat constructor).
  assert (H4 : In "A" (map upper ["a"]) \/ In "AAAA" (map upper ["a"])) by (left; left; reflexivity).
  assert (H5 : markup_plain "www.example.com" = true) by reflexivity.
  assert (H6 : forall c, (fun _ : string => @inr exc string "example.com") "www.example.com" = inr c ->
                         markup_plain c = true)
    by (intros c H; injection H as <-; reflexivity).
  split; [exact H1|]. split; [exact H2|]. split; [exact H3|]. split; [exact H4|]. split; [exact H5|].
  exact (dns_cmd_alias_then_resolve _ (fun _ => inr "example.com") _ _ _ H1 H2 H3 H4 H5 H6).
Defined.

(** [socket.gethostbyname_ex] is consulted only when A or AAAA is among
    the requested types: otherwise its answer does not change anything. *)
Theorem dns_cmd_canonical_only_for_addresses is_ip gx1 gx2 env h types :
  types <> [] -> ~ In "A" (map upper types) -> ~ In "AAAA" (map upper types) ->
  dns_cmd is_ip gx1 env h types = dns_cmd is_ip gx2 env h types.
Proof.
  intros Hne HA HAAAA. unfold dns_cmd.
  destruct (validate_host is_ip h); [|reflexivity]. cbn [negb].
  destruct types as [|t ts]; [congruence|]. cbv zeta.
  assert (Hn : forall x, In x (map upper (filter (fun t => supported (upper t)) (t :: ts))) ->
                         In x (map upper (t :: ts))).
  { intros x Hx. apply in_map_iff in Hx as (y & <- & Hy). apply filter_In in Hy as [Hy _].
    apply in_map, Hy. }
  assert (Hx : existsb (fun t0 => existsb (String.eqb t0)
                 (map upper (filter (fun t => supported (upper t)) (t :: ts)))) ["A"; "AAAA"] = false).
  { cbn [existsb]. rewrite !orb_false_r.
    apply orb_false_iff. split; apply not_true_iff_false; intros H;
      apply existsb_exists in H as (y & Hy & Hq); apply String.eqb_eq in Hq; subst y;
      apply Hn in Hy; contradiction. }
  rewrite Hx. reflexivity.
Qed.

Lemma dns_cmd_canonical_only_for_addresses_witness :
  ["mx"; "TXT"] <> [] /\ ~ In "A" (map upper ["mx"; "TXT"]) /\ ~ In "AAAA" (map upper ["mx"; "TXT"]) /\
  dns_cmd (fun _ => false) (fun _ => inr "alias.example.net") (env_example (fun s => inr s))
          "example.com" ["mx"; "TXT"]
  = dns_cmd (fun _ => false) (fun _ => inl (OtherError "gaierror" "Name or service not known"))
            (env_example (fun s => inr s)) "example.com" ["mx"; "TXT"].
Proof.
  assert (H1 : ["mx"; "TXT"] <> []) by discriminate.
  assert (H2 : ~ In "A" (map upper ["mx"; "TXT"])) by (simpl; intuition discriminate).
  assert (H3 : ~ In "AAAA" (map upper ["mx"; "TXT"])) by (simpl; intuition discriminate).
  split; [exact H1|]. split; [exact H2|]. split; [exact H3|].
  exact (dns_cmd_canonical_only_for_addresses _ _ _ _ _ _ H1 H2 H3).
Defined.

End DnsCmdExtra.

(* ------------------------------------------------------------------ *)
(** ** [get_interface_details] *)

Module IfaceExtra.
Import Display Iface Scenarios2.

Definition link_only (en : string * list snic) : Prop :=
  Forall (fun s => snic_family s = AF_LINK) (snd en).

Lemma last_default {A} (x : A) l d d' : last (x :: l) d = last (x :: l) d'.
Proof. revert x. induction l as [|y l IH]; intros x; [reflexivity|]. exact (IH y). Qed.

(** What the loop builds for an interface whose addresses are all
    link-layer ones. *)
Lemma update_snics_link i snics :
  Forall (fun s => snic_family s = AF_LINK) snics ->
  update_snics i snics
  = inr {| Interface := Interface i; MAC_Address := last (map snic_address snics) (MAC_Address i);
           IPv4_Address := IPv4_Address i; IPv4_Netmask := IPv4_Netmask i;
           IPv6_Address := IPv6_Address i; Status := Status i |}.
Proof.
  intros H. revert i. induction H as [|s l Hs _ IH]; intros i.
  - destruct i; reflexivity.
  - cbn [update_snics]. unfold update_snic at 1. rewrite Hs. rewrite IH. cbn [Interface MAC_Address
      IPv4_Address IPv4_Netmask IPv6_Address Status].
    destruct l as [|s' l]; [reflexivity|]. cbn [map]. rewrite (last_default _ _ _ (MAC_Address i)).
    reflexivity.
Qed.

Lemma update_snics_other i snics :
  Exists (fun s => snic_family s <> AF_LINK) snics ->
  update_snics i snics = inl (NameError "name 'socket' is not defined").
Proof.
  intros H. revert i. induction H as [s l Hs|s l _ IH]; intros i; cbn [update_snics];
    unfold update_snic at 1.
  - destruct (snic_family s); [congruence|reflexivity..].
  - destruct (snic_family s); [apply IH|reflexivity..].
Qed.

Lemma collect_link st addrs acc :
  Forall link_only addrs ->
  collect st addrs acc
  = inr (acc ++ map (fun en =>
           {| Interface := fst en; MAC_Address := last (map snic_address (snd en)) "";
              IPv4_Address := ""; IPv4_Netmask := VS ""; IPv6_Address := "";
              Status := Status (info0 st (fst en)) |}) addrs)%list.
Proof.
  intros H. revert acc. induction H as [|[name snics] l Hs _ IH]; intros acc.
  - rewrite app_nil_r. reflexivity.
  - cbn [collect]. rewrite (update_snics_link _ _ Hs). rewrite IH, <- app_assoc. reflexivity.
Qed.

Lemma collect_stop st pre en post acc :
  Forall link_only pre -> Exists (fun s => snic_family s <> AF_LINK) (snd en) ->
  collect st (pre ++ en :: post) acc
  = inl (NameError "name 'socket' is not defined",
         acc ++ map (fun en =>
           {| Interface := fst en; MAC_Address := last (map snic_address (snd en)) "";
              IPv4_Address := ""; IPv4_Netmask := VS ""; IPv6_Address := "";
              Status := Status (info0 st (fst en)) |}) pre)%list.
Proof.
  intros H Hen. revert acc. induction H as [|[name snics] l Hs _ IH]; intros acc.
  - destruct en as [name snics]. cbn [app collect]. rewrite (update_snics_other _ _ Hen).
    rewrite app_nil_r. reflexivity.
  - cbn [app collect]. rewrite (update_snics_link _ _ Hs). rewrite IH, <- app_assoc. reflexivity.
Qed.

(** When every interface has only link-layer addresses (and there is at
    least one), [get_interface_details] shows the "Network Interfaces"
    table with the fixed column order and one row per interface, in the
    order of [psutil.net_if_addrs()]: name, status ("Up", "Down", or "N/A"
    when the interface is missing from [psutil.net_if_stats()]), empty IPv4
    address, netmask and IPv6 address, and the last link-layer address
    listed as MAC address (empty when there is none); it returns the
    matching dicts. *)
Theorem get_interface_details_link_only addrs st :
  addrs <> [] -> Forall link_only addrs ->
  get_interface_details (inr addrs) (inr st)
  = ([OInfo "Fetching local network interface information...";
      OTable (Shown (Some "Network Interfaces")
                ["Interface"; "Status"; "IP Address (IPv4)"; "Netmask (IPv4)";
                 "IP Address (IPv6)"; "MAC Address"]
                (map (fun en =>
                        [fst en;
                         match lookup_isup st (fst en) with
                         | Some true => "Up" | Some false => "Down" | None => "N/A" end;
                         ""; ""; ""; last (map snic_address (snd en)) ""]) addrs))],
     map (fun en =>
            {| Interface := fst en; MAC_Address := last (map snic_address (snd en)) "";
               IPv4_Address := ""; IPv4_Netmask := VS ""; IPv6_Address := "";
               Status := Status (info0 st (fst en)) |}) addrs).
Proof.
  intros Hne H. unfold get_interface_details. rewrite (collect_link _ _ _ H). cbn [app].
  destruct addrs as [|en addrs]; [congruence|]. cbn [map].
  unfold display_table. cbn [map]. rewrite !map_map. reflexivity.
Qed.

Lemma get_interface_details_link_only_witness :
  firstn 3 ifaces_example <> [] /\ Forall link_only (firstn 3 ifaces_example) /\
  get_interface_details (inr (firstn 3 ifaces_example)) (inr stats_example)
  = ([OInfo "Fetching local network interface information...";
      OTable (Shown (Some "Network Interfaces")
                ["Interface"; "Status"; "IP Address (IPv4)"; "Netmask (IPv4)";
                 "IP Address (IPv6)"; "MAC Address"]
                [["lo"; "Up"; ""; ""; ""; ""];
                 ["eth0"; "Up"; ""; ""; ""; "aa:bb:cc:dd:ee:ff"];
                 ["br0"; "N/A"; ""; ""; ""; "02:42:ac:11:00:01"]])],
     map (fun en =>
            {| Interface := fst en; MAC_Address := last (map snic_address (snd en)) "";
               IPv4_Address := ""; IPv4_Netmask := VS ""; IPv6_Address := "";
               Status := Status (info0 stats_example (fst en)) |}) (firstn 3 ifaces_example)).
Proof.
  assert (H1 : firstn 3 ifaces_example <> []) by discriminate.
  assert (H2 : Forall link_only (firstn 3 ifaces_example))
    by (repeat constructor).
  split; [exact H1|]. split; [exact H2|].
  exact (get_interface_details_link_only _ stats_example H1 H2).
Defined.

(** As soon as an interface has an address of another family than
    [psutil.AF_LINK] (an IPv4 or IPv6 address), the unimported [socket]
    raises [NameError]: [get_interface_details] prints "Could not retrieve
    interface information: name 'socket' is not defined", shows no table,
    and returns the dicts of the interfaces before that one only. *)
Theorem get_interface_details_socket_error pre en post st :
  Forall link_only pre -> Exists (fun s => snic_family s <> AF_LINK) (snd en) ->
  get_interface_details (inr (pre ++ en :: post)%list) (inr st)
  = ([OInfo "Fetching local network interface information...";
      OError "Could not retrieve interface information: name 'socket' is not defined"],
     map (fun en =>
            {| Interface := fst en; MAC_Address := last (map snic_address (snd en)) "";
               IPv4_Address := ""; IPv4_Netmask := VS ""; IPv6_Address := "";
               Status := Status (info0 st (fst en)) |}) pre).
Proof.
  intros Hpre Hen. unfold get_interface_details. rewrite (collect_stop _ _ _ _ _ Hpre Hen).
  reflexivity.
Qed.

Lemma get_interface_details_socket_error_witness :
  Forall link_only (firstn 3 ifaces_example) /\
  Exists (fun s => snic_family s <> AF_LINK)
    (snd ("wlan0", [{| snic_family := AF_LINK; snic_address := "11:22:33:44:55:66"; snic_netmask := None |};
                    {| snic_family := AF_INET; snic_address := "192.168.1.5";
                       snic_netmask := Some "255.255.255.0" |}])) /\
  get_interface_details (inr ifaces_example) (inr stats_example)
  = ([OInfo "Fetching local network interface information...";
      OError "Could not retrieve interface information: name 'socket' is not defined"],
     map (fun en =>
            {| Interface := fst en; MAC_Address := last (map snic_address (snd en)) "";
               IPv4_Address := ""; IPv4_Netmask := VS ""; IPv6_Address := "";
               Status := Status (info0 stats_example (fst en)) |}) (firstn 3 ifaces_example)).
Proof.
  assert (H1 : Forall link_only (firstn 3 ifaces_example)) by (repeat constructor).
  assert (H2 : Exists (fun s => snic_family s <> AF_LINK)
    (snd ("wlan0", [{| snic_family := AF_LINK; snic_address := "11:22:33:44:55:66"; snic_netmask := None |};
                    {| snic_family := AF_INET; snic_address := "192.168.1.5";
                       snic_netmask := Some "255.255.255.0" |}])))
    by (right; left; discriminate).
  split; [exact H1|]. split; [exact H2|].
  exact (get_interface_details_socket_error (firstn 3 ifaces_example) _ [] stats_example H1 H2).
Defined.

(** An interface with an IPv4 or IPv6 address anywhere in
    [psutil.net_if_addrs()] means no table is ever shown: the console gets
    the start message and the [NameError] message only. *)
Theorem get_interface_details_no_table_with_ip addrs st :
  Exists (fun en => Exists (fun s => snic_family s <> AF_LINK) (snd en)) addrs ->
  fst (get_interface_details (inr addrs) (inr st))
  = [OInfo "Fetching local network interface information...";
     OError "Could not retrieve interface information: name 'socket' is not defined"].
Proof.
  intros H.
  assert (Hsplit : exists pre en post, addrs = (pre ++ en :: post)%list /\ Forall link_only pre /\
                     Exists (fun s => snic_family s <> AF_LINK) (snd en)).
  { induction H as [en post Hen|en0 l Hl IH].
    - exists [], en, post. repeat split; [constructor | exact Hen].
    - destruct (Exists_dec (fun s => snic_family s <> AF_LINK) (snd en0)) as [Hx|Hx].
      + intros s. destruct (snic_family s); [right; congruence | left; discriminate..].
      + exists [], en0, l. repeat split; [constructor | exact Hx].
      + destruct IH as (pre & en & post & -> & Hpre & Hen).
        exists (en0 :: pre), en, post. repeat split; [|exact Hen]. constructor; [|exact Hpre].
        unfold link_only. apply Forall_forall. intros s Hs.
        destruct (snic_family s) eqn:E; [reflexivity|exfalso; apply Hx; apply Exists_exists;
          exists s; split; [exact Hs | rewrite E; discriminate]..]. }
  destruct Hsplit as (pre & en & post & -> & Hpre & Hen).
  unfold get_interface_details. rewrite (collect_stop _ _ _ _ _ Hpre Hen). reflexivity.
Qed.

Lemma get_interface_details_no_table_with_ip_witness :
  Exists (fun en => Exists (fun s => snic_family s <> AF_LINK) (snd en)) ifaces_example /\
  fst (get_interface_details (inr ifaces_example) (inr stats_example))
  = [OInfo "Fetching local network interface information...";
     OError "Could not retrieve interface information: name 'socket' is not defined"].
Proof.
  assert (H : Exists (fun en => Exists (fun s => snic_family s <> AF_LINK) (snd en)) ifaces_example)
    by (do 3 right; left; right; left; discriminate).
  split; [exact H | exact (get_interface_details_no_table_with_ip _ _ H)].
Defined.

End IfaceExtra.

(* ------------------------------------------------------------------ *)
(** ** More of [resolve_hostname] *)

Module DnsMoreExtra.
Import Dns DnsCmd DnsExtra Scenarios Scenarios2.

Lemma append_answers_goods env t rt goods bad rest vs e : forall acc,
  map (format_answer env rt) goods = map inr vs -> format_answer env rt bad = inl e ->
  append_answers env t rt (goods ++ bad :: rest) [(t, acc)] = ([(t, (acc ++ vs)%list)], Some e).
Proof.
  revert vs. induction goods as [|g goods IH]; intros vs acc Hg Hb.
  - destruct vs; [|discriminate]. cbn [app append_answers]. rewrite Hb, app_nil_r. reflexivity.
  - destruct vs as [|v vs]; [discriminate|]. injection Hg as Hg Hgs.
    cbn [app append_answers]. rewrite Hg. cbn [dict_append]. rewrite String.eqb_refl.
    cbn [option_map]. rewrite (IH vs (acc ++ [v])%list Hgs Hb), <- app_assoc. reflexivity.
Qed.

(** For one supported record type, when formatting an answer fails (a
    TXT string that is not UTF-8, a missing attribute), the answers
    formatted before it stay in the result and the error sentinel follows
    them; the answers after it are dropped. *)
Theorem resolve_hostname_partial_answers env h t goods bad rest vs e :
  supported (upper t) = true ->
  resolve env h (upper t) = inr (goods ++ bad :: rest)%list ->
  map (format_answer env (upper t)) goods = map inr vs ->
  format_answer env (upper t) bad = inl e ->
  is_no_answer e = false ->
  fst (run (resolve_hostname env h [t])) = Ret [(t, (vs ++ sentinel e)%list)].
Proof.
  intros Hs Hr Hg Hb He. unfold run, resolve_hostname, bind, emit.
  change (dict_init [t]) with [(t, @nil string)]. cbn [resolve_loop].
  unfold supported in Hs. rewrite Hs. cbn [negb]. unfold bind, emit.
  rewrite Hr, (append_answers_goods _ _ _ _ _ _ _ _ [] Hg Hb). cbn [app].
  destruct (handle_mk h t e [t] (fun _ => vs)
              ((([Info ("Performing DNS lookup for " ++ h ++ ", types: " ++ join ", " [t] ++ "...")]
                 ++ [Query h (upper t)]))%list)
              ltac:(repeat constructor; intros [])
              ltac:(left; reflexivity) He) as [tr' Htr].
  change (mk [t] (fun _ => vs)) with [(t, vs)] in Htr. cbn [app] in Htr.
  unfold mk in Htr. cbn [map] in Htr. rewrite String.eqb_refl in Htr.
  rewrite Htr. cbn [resolve_loop]. unfold ret. cbn [table_rows flat_map].
  destruct (vs ++ sentinel e)%list; reflexivity.
Qed.

Lemma resolve_hostname_partial_answers_witness :
  fst (run (resolve_hostname env_txt "example.com" ["txt"]))
  = Ret [("txt", ["v=spf1 -all"; "Error: 'utf-8' codec can't decode byte 0xff in position 0: invalid start byte"])].
Proof.
  refine (resolve_hostname_partial_answers env_txt "example.com" "txt"
            [RTXT ["v=spf1 -all"]] (RTXT [String (ascii_of_nat 255) EmptyString]) [RTXT ["site-verification=abc"]]
            ["v=spf1 -all"]
            (UnicodeDecodeError "'utf-8' codec can't decode byte 0xff in position 0: invalid start byte")
            _ _ _ _ _); reflexivity.
Defined.



Lemma resolve_loop_unsupported env h types : forall d tr,
  Forall (fun t => supported (upper t) = false) types ->
  resolve_loop env h types d tr
  = (Ret d, (tr ++ map (fun t => Error ("Unsupported record type: " ++ t ++ ". Skipping.")) types)%list).
Proof.
  induction types as [|t ts IH]; intros d tr H; cbn [resolve_loop].
  - rewrite app_nil_r. reflexivity.
  - inversion H as [|? ? Ht Hts]; subst. unfold supported in Ht. rewrite Ht. cbn [negb].
    unfold bind, emit. rewrite (IH d _ Hts), <- app_assoc. reflexivity.
Qed.

(** When no requested type is supported (the types distinct), no query is
    made: [resolve_hostname] reports each type as unsupported, shows a
    "No data" row per type and returns every type with an empty list.  The
    hostname and the types hold no rich markup, and no µ or ÿ (see
    [upper]). *)
Theorem resolve_hostname_unsupported env h types :
  types <> [] -> NoDup types ->
  Forall (fun t => supported (upper t) = false) types ->
  markup_plain h = true ->
  Forall (fun t => markup_plain t && upper_exact t = true) types ->
  run (resolve_hostname env h types)
  = (Ret (map (fun t => (t, [])) types),
     (Info ("Performing DNS lookup for " ++ h ++ ", types: " ++ join ", " types ++ "...")
      :: map (fun t => Error ("Unsupported record type: " ++ t ++ ". Skipping.")) types
      ++ [Table ("DNS Records for " ++ h) (map (fun t => (upper t, "No data")) types)])%list).
Proof.
  intros Hne Hn Hall _ _. unfold run, resolve_hostname, bind, emit.
  rewrite (dict_init_mk _ Hn). rewrite (resolve_loop_unsupported _ _ _ _ _ Hall).
  assert (Hrows : table_rows (mk types (fun _ => [])) = map (fun t => (upper t, "No data")) types).
  { unfold table_rows, mk. clear. induction types as [|t ts IH]; [reflexivity|].
    cbn [map flat_map]. rewrite IH. reflexivity. }
  rewrite Hrows. destruct types as [|t ts]; [congruence|]. cbn [map]. unfold ret. reflexivity.
Qed.

Lemma resolve_hostname_unsupported_witness :
  ["ptr"; "ANY"] <> [] /\ NoDup ["ptr"; "ANY"] /\
  Forall (fun t => supported (upper t) = false) ["ptr"; "ANY"] /\
  markup_plain "example.com" = true /\
  run (resolve_hostname env_failing "example.com" ["ptr"; "ANY"])
  = (Ret [("ptr", []); ("ANY", [])],
     [Info "Performing DNS lookup for example.com, types: ptr, ANY...";
      Error "Unsupported record type: ptr. Skipping.";
      Error "Unsupported record type: ANY. Skipping.";
      Table "DNS Records for example.com" [("PTR", "No data"); ("ANY", "No data")]]).
Proof.
  assert (H1 : ["ptr"; "ANY"] <> []) by discriminate.
  assert (H2 : NoDup ["ptr"; "ANY"]) by (repeat constructor; simpl; intuition discriminate).
  assert (H3 : Forall (fun t => supported (upper t) = false) ["ptr"; "ANY"]) by (repeat constructor).
  assert (H4 : markup_plain "example.com" = true) by reflexivity.
  assert (H5 : Forall (fun t => markup_plain t && upper_exact t = true) ["ptr"; "ANY"])
    by (repeat constructor).
  split; [exact H1|]. split; [exact H2|]. split; [exact H3|]. split; [exact H4|].
  exact (resolve_hostname_unsupported env_failing "example.com" _ H1 H2 H3 H4 H5).
Defined.

End DnsMoreExtra.
